(** * The Mijn Simpel usage widget: session acquisition and caching pipeline

    A shallow embedding of [scriptable-mijnsimpel.js].  The script reads
    and writes three JSON documents through the host's [FileManager], asks
    for credentials through an [Alert], talks to the carrier's API through
    [Request] objects and finally hands a widget to the host.

    - JavaScript values are the inductive type [value].  Strings are byte
      strings (the UTF-8 text); numbers are integers, which is what the
      script handles (status codes, error codes, amounts); an object is the
      list of its properties in enumeration order.
    - [JSON.stringify] and [JSON.parse] are written out on these values.
    - The host's storage is a finite map from paths to file contents
      together with the set of directories that were created.  The bridge
      to the host checks the type of its arguments: a content that is not
      a string is refused.
    - The asynchronous functions run in a state-and-exception monad over a
      [world] (storage, history of events, the one global variable that the
      script assigns).  The answers of the host (alert, network, clock) are
      read from a [host] record and may depend on the whole history, so
      that two identical requests may be answered differently.
    - The widget is kept as the texts and the colours that the script
      chooses; fonts, paddings, the logo and the refresh date are left
      out. *)

From Stdlib Require Import ZArith NArith Ascii Lia Bool.
From Stdlib Require String.
From stdpp Require Import base option list gmap strings.

Local Open Scope Z_scope.
Local Set Warnings "-register-all".

(** ** JavaScript values *)

Inductive value : Type :=
| VUndefined
| VNull
| VBool (b : bool)
| VNum (n : Z)
| VStr (s : string)
| VArr (elems : list value)
| VObj (props : list (string * value)).

(** Faults that a JavaScript computation can raise. *)
Inductive exn : Type :=
| JsError (msg : string)      (* [throw new Error(msg)] in the script *)
| TypeError (msg : string)    (* property read or call on a wrong value *)
| SyntaxError (msg : string)  (* [JSON.parse] on a malformed text *)
| HostError (msg : string).   (* fault raised by a host service *)

Inductive result (A : Type) : Type :=
| Ok (a : A)
| Throw (e : exn).
Arguments Ok {A} a.
Arguments Throw {A} e.

(** ** Strings *)

(** Decimal digits of a natural number, most significant first, put in
    front of [acc]. *)
Definition digit_char (d : N) : ascii := ascii_of_N (48 + d).

Fixpoint digits_of (fuel : nat) (n : N) (acc : string) : string :=
  let acc' := String (digit_char (n mod 10)) acc in
  match fuel with
  | O => acc'
  | S f => if (n / 10 =? 0)%N then acc' else digits_of f (n / 10)%N acc'
  end.

Definition dec_N (n : N) : string :=
  digits_of (N.to_nat (N.log2 n)) n EmptyString.

(** [Number.prototype.toString] on an integer (below 10^21 in magnitude,
    where JavaScript switches to the exponent form). *)
Definition dec (z : Z) : string :=
  if z <? 0 then String "-" (dec_N (Z.to_N (- z))) else dec_N (Z.to_N z).

(** ** JSON.stringify

    [QuoteJSONString]: the two-character escapes, [\u00xx] for the other
    control characters, every other character as it is. *)
Definition dquote : ascii := ascii_of_N 34.
Definition bslash : ascii := ascii_of_N 92.

Definition hex_char (d : N) : ascii :=
  if (d <? 10)%N then ascii_of_N (48 + d) else ascii_of_N (87 + d).

Definition escape_char (c : ascii) : string :=
  let n := N_of_ascii c in
  if (n =? 8)%N then "\b"
  else if (n =? 9)%N then "\t"
  else if (n =? 10)%N then "\n"
  else if (n =? 12)%N then "\f"
  else if (n =? 13)%N then "\r"
  else if (n =? 34)%N then String bslash (String c EmptyString)
  else if (n =? 92)%N then "\\"
  else if (n <? 32)%N then
    "\u00" +:+ String (hex_char (n / 16)) (String (hex_char (n mod 16)) EmptyString)
  else String c EmptyString.

Fixpoint escape (s : string) : string :=
  match s with
  | EmptyString => EmptyString
  | String c r => escape_char c +:+ escape r
  end.

Definition quote (s : string) : string :=
  String dquote (escape s +:+ String dquote EmptyString).

(** [Array.prototype.join] on an array of strings. *)
Fixpoint js_join (sep : string) (l : list string) : string :=
  match l with
  | [] => EmptyString
  | [x] => x
  | x :: r => x +:+ sep +:+ js_join sep r
  end.

(** [JSON.stringify]: [None] is the result [undefined].  An [undefined]
    array element is written as [null], an [undefined] property is left
    out. *)
Fixpoint JSON_stringify (v : value) : option string :=
  match v with
  | VUndefined => None
  | VNull => Some "null"
  | VBool true => Some "true"
  | VBool false => Some "false"
  | VNum n => Some (dec n)
  | VStr s => Some (quote s)
  | VArr l =>
      let fix elems (l : list value) : list string :=
        match l with
        | [] => []
        | e :: r => default "null" (JSON_stringify e) :: elems r
        end in
      Some ("[" +:+ js_join "," (elems l) +:+ "]")
  | VObj ps =>
      let fix members (ps : list (string * value)) : list string :=
        match ps with
        | [] => []
        | (k, e) :: r =>
            match JSON_stringify e with
            | Some t => (quote k +:+ ":" +:+ t) :: members r
            | None => members r
            end
        end in
      Some ("{" +:+ js_join "," (members ps) +:+ "}")
  end.

(** ** JSON.parse

    A recursive-descent reader for the JSON grammar.  Number literals with
    a fraction or an exponent, and [\u] escapes that name a UTF-16
    surrogate, have no counterpart in [value] and are refused. *)

Definition is_ws (c : ascii) : bool :=
  let n := N_of_ascii c in
  ((n =? 32) || (n =? 9) || (n =? 10) || (n =? 13))%N.

Fixpoint skip_ws (s : string) : string :=
  match s with
  | String c r => if is_ws c then skip_ws r else s
  | EmptyString => s
  end.

Definition is_digit (c : ascii) : bool :=
  let n := N_of_ascii c in ((48 <=? n) && (n <=? 57))%N.

Fixpoint read_digits (acc : N) (s : string) : N * string :=
  match s with
  | String c r =>
      if is_digit c then read_digits (10 * acc + (N_of_ascii c - 48))%N r
      else (acc, s)
  | EmptyString => (acc, s)
  end.

(** The integer part of a JSON number: a zero stands alone. *)
Definition read_nat (s : string) : option (N * string) :=
  match s with
  | String c r =>
      if is_digit c then
        if (N_of_ascii c =? 48)%N then Some (0%N, r) else Some (read_digits 0 s)
      else None
  | EmptyString => None
  end.

(** What may not follow an integer literal: another digit, a fraction, an
    exponent. *)
Definition ends_integer (s : string) : bool :=
  match s with
  | String c _ =>
      negb (is_digit c || Ascii.eqb c "." || Ascii.eqb c "e" || Ascii.eqb c "E")
  | EmptyString => true
  end.

Definition read_number (s : string) : option (Z * string) :=
  match s with
  | String c r =>
      if Ascii.eqb c "-" then
        '(n, r') ← read_nat r;
        if ends_integer r' then Some (- Z.of_N n, r') else None
      else
        '(n, r') ← read_nat s;
        if ends_integer r' then Some (Z.of_N n, r') else None
  | EmptyString => None
  end.

Definition hex_val (c : ascii) : option N :=
  let n := N_of_ascii c in
  if ((48 <=? n) && (n <=? 57))%N then Some (n - 48)%N
  else if ((97 <=? n) && (n <=? 102))%N then Some (n - 87)%N
  else if ((65 <=? n) && (n <=? 70))%N then Some (n - 55)%N
  else None.

(** The UTF-8 bytes of a code point of the basic plane. *)
Definition utf8 (cp : N) : option string :=
  if (cp <? 128)%N then Some (String (ascii_of_N cp) EmptyString)
  else if (cp <? 2048)%N then
    Some (String (ascii_of_N (192 + cp / 64))
         (String (ascii_of_N (128 + cp mod 64)) EmptyString))
  else if ((55296 <=? cp) && (cp <=? 57343))%N then None
  else
    Some (String (ascii_of_N (224 + cp / 4096))
         (String (ascii_of_N (128 + (cp / 64) mod 64))
         (String (ascii_of_N (128 + cp mod 64)) EmptyString))).

Definition unescape (e : ascii) : option ascii :=
  if Ascii.eqb e dquote then Some dquote
  else if Ascii.eqb e bslash then Some bslash
  else if Ascii.eqb e "/" then Some "/"%char
  else if Ascii.eqb e "b" then Some (ascii_of_N 8)
  else if Ascii.eqb e "f" then Some (ascii_of_N 12)
  else if Ascii.eqb e "n" then Some (ascii_of_N 10)
  else if Ascii.eqb e "r" then Some (ascii_of_N 13)
  else if Ascii.eqb e "t" then Some (ascii_of_N 9)
  else None.

(** The characters of a string literal after its opening quote, up to the
    closing one. *)
Fixpoint read_string (s : string) : option (string * string) :=
  match s with
  | EmptyString => None
  | String c r =>
      if Ascii.eqb c dquote then Some (EmptyString, r)
      else if Ascii.eqb c bslash then
        match r with
        | String e r1 =>
            if Ascii.eqb e "u" then
              match r1 with
              | String h1 (String h2 (String h3 (String h4 r2))) =>
                  a ← hex_val h1; b ← hex_val h2;
                  c ← hex_val h3; d ← hex_val h4;
                  bytes ← utf8 (((a * 16 + b) * 16 + c) * 16 + d)%N;
                  '(t, rest) ← read_string r2;
                  Some (bytes +:+ t, rest)
              | _ => None
              end
            else
              x ← unescape e;
              '(t, rest) ← read_string r1;
              Some (String x t, rest)
        | EmptyString => None
        end
      else if (N_of_ascii c <? 32)%N then None
      else
        '(t, rest) ← read_string r;
        Some (String c t, rest)
  end.

(** [s] without the prefix [p]. *)
Fixpoint strip_prefix (p s : string) : option string :=
  match p, s with
  | EmptyString, _ => Some s
  | String a p', String b s' => if Ascii.eqb a b then strip_prefix p' s' else None
  | String _ _, EmptyString => None
  end.

(** Property definition on an object under construction: a repeated key
    keeps its place and takes the later value. *)
Fixpoint obj_set (k : string) (v : value) (ps : list (string * value))
  : list (string * value) :=
  match ps with
  | [] => [(k, v)]
  | (k', v') :: r =>
      if String.eqb k k' then (k, v) :: r else (k', v') :: obj_set k v r
  end.

Fixpoint parse_value (fuel : nat) (s : string) : option (value * string) :=
  match fuel with
  | O => None
  | S f =>
      match skip_ws s with
      | EmptyString => None
      | String c r =>
          if Ascii.eqb c "n" then
            r' ← strip_prefix "ull" r; Some (VNull, r')
          else if Ascii.eqb c "t" then
            r' ← strip_prefix "rue" r; Some (VBool true, r')
          else if Ascii.eqb c "f" then
            r' ← strip_prefix "alse" r; Some (VBool false, r')
          else if Ascii.eqb c dquote then
            '(t, r') ← read_string r; Some (VStr t, r')
          else if Ascii.eqb c "[" then
            match skip_ws r with
            | String c' r' =>
                if Ascii.eqb c' "]" then Some (VArr [], r')
                else '(l, r'') ← parse_elems f r; Some (VArr l, r'')
            | EmptyString => None
            end
          else if Ascii.eqb c "{" then
            match skip_ws r with
            | String c' r' =>
                if Ascii.eqb c' "}" then Some (VObj [], r')
                else '(ps, r'') ← parse_members f [] r; Some (VObj ps, r'')
            | EmptyString => None
            end
          else
            '(n, r') ← read_number (String c r); Some (VNum n, r')
      end
  end
with parse_elems (fuel : nat) (s : string) : option (list value * string) :=
  match fuel with
  | O => None
  | S f =>
      '(v, r) ← parse_value f s;
      match skip_ws r with
      | String c r' =>
          if Ascii.eqb c "," then
            '(l, r'') ← parse_elems f r'; Some (v :: l, r'')
          else if Ascii.eqb c "]" then Some ([v], r')
          else None
      | EmptyString => None
      end
  end
with parse_members (fuel : nat) (acc : list (string * value)) (s : string)
  : option (list (string * value) * string) :=
  match fuel with
  | O => None
  | S f =>
      match skip_ws s with
      | String q r =>
          if Ascii.eqb q dquote then
            '(k, r1) ← read_string r;
            match skip_ws r1 with
            | String c r2 =>
                if Ascii.eqb c ":" then
                  '(v, r3) ← parse_value f r2;
                  let acc' := obj_set k v acc in
                  match skip_ws r3 with
                  | String c' r4 =>
                      if Ascii.eqb c' "," then parse_members f acc' r4
                      else if Ascii.eqb c' "}" then Some (acc', r4)
                      else None
                  | EmptyString => None
                  end
                else None
            | EmptyString => None
            end
          else None
      | EmptyString => None
      end
  end.

(** [JSON.parse]: one value, then only white space. *)
Definition JSON_parse (s : string) : result value :=
  match parse_value (String.length s) s with
  | Some (v, r) =>
      match skip_ws r with
      | EmptyString => Ok v
      | String _ _ => Throw (SyntaxError "JSON Parse error")
      end
  | None => Throw (SyntaxError "JSON Parse error")
  end.


(** ** Reading values *)

(** [ToString], as applied by template literals and by [+] with a string
    operand. *)
Fixpoint js_to_string (v : value) : string :=
  match v with
  | VUndefined => "undefined"
  | VNull => "null"
  | VBool true => "true"
  | VBool false => "false"
  | VNum n => dec n
  | VStr s => s
  | VArr l =>
      let fix elems (l : list value) : list string :=
        match l with
        | [] => []
        | VUndefined :: r | VNull :: r => EmptyString :: elems r
        | e :: r => js_to_string e :: elems r
        end in
      js_join "," (elems l)
  | VObj _ => "[object Object]"
  end.

Fixpoint lookup_prop (k : string) (ps : list (string * value)) : value :=
  match ps with
  | [] => VUndefined
  | (k', v) :: r => if String.eqb k k' then v else lookup_prop k r
  end.

(** The property read [v.k], for the names the script reads (none of them
    is defined on a built-in prototype). *)
Definition get_prop (v : value) (k : string) : result value :=
  match v with
  | VUndefined =>
      Throw (TypeError ("undefined is not an object (evaluating '" +:+ k +:+ "')"))
  | VNull =>
      Throw (TypeError ("null is not an object (evaluating '" +:+ k +:+ "')"))
  | VObj ps => Ok (lookup_prop k ps)
  | _ => Ok VUndefined
  end.

Definition is_undefined (v : value) : bool :=
  match v with VUndefined => true | _ => false end.

(** [v === s] for a string literal [s]. *)
Definition strict_eq_string (v : value) (s : string) : bool :=
  match v with VStr t => String.eqb t s | _ => false end.

Global Instance result_ret : MRet result := fun A a => Ok a.
Global Instance result_bind : MBind result := fun A B f m =>
  match m with
  | Ok a => f a
  | Throw e => Throw e
  end.

Fixpoint map_result {A B} (f : A -> result B) (l : list A) : result (list B) :=
  match l with
  | [] => Ok []
  | x :: r => y ← f x; ys ← map_result f r; Ok (y :: ys)
  end.

(** [cookies.map(cookie => `${cookie.name}=${cookie.value}`).join("; ")] *)
Definition cookie_pair (cookie : value) : result string :=
  n ← get_prop cookie "name";
  v ← get_prop cookie "value";
  Ok (js_to_string n +:+ "=" +:+ js_to_string v).

Definition cookie_header (cookies : value) : result string :=
  match cookies with
  | VArr l => parts ← map_result cookie_pair l; Ok (js_join "; " parts)
  | VUndefined =>
      Throw (TypeError "undefined is not an object (evaluating 'cookies.map')")
  | VNull =>
      Throw (TypeError "null is not an object (evaluating 'cookies.map')")
  | _ => Throw (TypeError "cookies.map is not a function")
  end.

(** ** The host's storage (FileManager)

    The storage is idealised: a path is a string, [joinPath] puts a slash
    between its arguments, a directory exists once it was created and a
    write of a string always succeeds.  [fileExists] holds of files and of
    directories alike. *)

Record storage : Type := Storage {
  documents : string;             (* [documentsDirectory()] *)
  files : gmap string string;     (* contents of the files, by path *)
  dirs : gset string              (* directories made by [createDirectory] *)
}.

Definition joinPath (a b : string) : string := a +:+ "/" +:+ b.

Definition fileExists (p : string) (st : storage) : bool :=
  bool_decide (is_Some (files st !! p)) || bool_decide (p ∈ dirs st).

Definition createDirectory (p : string) (st : storage) : storage :=
  {| documents := documents st; files := files st; dirs := {[p]} ∪ dirs st |}.

Definition readString (p : string) (st : storage) : result string :=
  match files st !! p with
  | Some s => Ok s
  | None => Throw (HostError "The file could not be read.")
  end.

(** [writeString(path, content)]: the bridge refuses a content that is not
    a string ([None] is [undefined]). *)
Definition writeString (p : string) (content : option string) (st : storage)
  : result unit * storage :=
  match content with
  | Some s =>
      (Ok tt, {| documents := documents st; files := <[p := s]> (files st);
                 dirs := dirs st |})
  | None =>
      (Throw (HostError "Expected value of type string but got value of type undefined."),
       st)
  end.

Definition cacheDirectory (st : storage) : string :=
  joinPath (documents st) "bluewalk/mijnsimpel".

Definition cacheFile (fileName : string) (st : storage) : string :=
  joinPath (cacheDirectory st) fileName.

Definition getCachedData (fileName : string) (st : storage) : result value :=
  if negb (fileExists (cacheFile fileName st) st) then Ok VUndefined
  else
    contents ← readString (cacheFile fileName st) st;
    JSON_parse contents.

Definition cacheData (fileName : string) (data : value) (st : storage)
  : result unit * storage :=
  let st1 :=
    if negb (fileExists (cacheDirectory st) st)
    then createDirectory (cacheDirectory st) st else st in
  let contents := JSON_stringify data in
  writeString (cacheFile fileName st) contents st1.

(** ** The host's services and the history of a run

    The history records what a run did, newest event first.  [EvCall] is a
    ghost event: it marks the entry into an asynchronous function of the
    script and has no effect on the run. *)

Record request : Type := Request {
  url : string;
  method : string;
  headers : list (string * string);
  body : option string
}.

Record widget : Type := Widget {
  lines : list string;            (* the texts of the stack *)
  lastUpdate : string;
  gradient : string * string
}.

Inductive event : Type :=
| EvCall (fn : string)            (* entry into a function of the script *)
| EvAlert                         (* [alert.presentAlert()] *)
| EvLoad (req : request)          (* [req.load()] *)
| EvLoadJSON (req : request)      (* [req.loadJSON()] *)
| EvConsoleError (text : string)
| EvPresentSmall (w : widget)
| EvSetWidget (w : widget)
| EvComplete.

Record alert_outcome : Type := AlertOutcome {
  chosen : Z;                     (* index of the action, -1 for cancel *)
  textFields : list string
}.

Definition textFieldValue (a : alert_outcome) (i : nat) : string :=
  nth i (textFields a) EmptyString.

Record response : Type := Response {
  statusCode : Z;
  cookies : value
}.

Inductive load_outcome : Type :=
| LoadFault (e : exn)
| LoadDone (r : response).

Inductive loadJSON_outcome : Type :=
| JsonFault (e : exn)
| JsonDone (r : response) (json : value).

(** The answers of the host; each may depend on everything that happened
    before (the history, newest event first). *)
Record host : Type := Host {
  presentAlert : list event -> alert_outcome;
  load : list event -> request -> load_outcome;
  loadJSON : list event -> request -> loadJSON_outcome;
  toISOString : list event -> string;
  toLocaleString : list event -> string;
  runsInApp : bool
}.

Record world : Type := World {
  store : storage;
  history : list event;
  global_json : value             (* the global [json] assigned by fetchData *)
}.

(** ** The monad of the script: state and faults *)

Definition M (A : Type) : Type := world -> result A * world.

Global Instance M_ret : MRet M := fun A a w => (Ok a, w).
Global Instance M_bind : MBind M := fun A B f m w =>
  match m w with
  | (Ok a, w') => f a w'
  | (Throw e, w') => (Throw e, w')
  end.

Definition throw {A} (e : exn) : M A := fun w => (Throw e, w).

Definition try_catch {A} (m : M A) (handler : exn -> M A) : M A := fun w =>
  match m w with
  | (Ok a, w') => (Ok a, w')
  | (Throw e, w') => handler e w'
  end.

Definition lift {A} (r : result A) : M A := fun w => (r, w).

Definition emit (ev : event) : M unit := fun w =>
  (Ok tt, {| store := store w; history := ev :: history w;
             global_json := global_json w |}).

(** A question to the host, answered from the history so far and then
    recorded in it. *)
Definition ask {A} (answer : list event -> A) (ev : event) : M A := fun w =>
  (Ok (answer (history w)),
   {| store := store w; history := ev :: history w;
      global_json := global_json w |}).

Definition clock (now : list event -> string) : M string := fun w =>
  (Ok (now (history w)), w).

Definition set_global_json (v : value) : M unit := fun w =>
  (Ok tt, {| store := store w; history := history w; global_json := v |}).

Definition getCachedDataM (fileName : string) : M value := fun w =>
  (getCachedData fileName (store w), w).

Definition cacheDataM (fileName : string) (data : value) : M unit := fun w =>
  let '(r, st) := cacheData fileName data (store w) in
  (r, {| store := st; history := history w; global_json := global_json w |}).

Definition exn_text (e : exn) : string :=
  match e with
  | JsError m => "Error: " +:+ m
  | TypeError m => "TypeError: " +:+ m
  | SyntaxError m => "SyntaxError: " +:+ m
  | HostError m => "Error: " +:+ m
  end.

(** ** The functions of the script *)

Section Script.
Variable h : host.

Definition promptForCredentials : M value :=
  emit (EvCall "promptForCredentials");;
  response ← ask (presentAlert h) EvAlert;
  if chosen response =? -1
  then throw (JsError "User cancelled the login prompt.")
  else
    let username := textFieldValue response 0 in
    let password := textFieldValue response 1 in
    mret (VObj [("username", VStr username); ("password", VStr password)]).

Definition login_url : string := "https://api.simpel.nl/login".

Definition login_payload (username password : value) (datetime : string)
  : value :=
  VObj [("username", username); ("password", password);
        ("remember", VBool true); ("datetime", VStr datetime)].

Definition login_request (payload : value) : request :=
  {| url := login_url;
     method := "POST";
     headers := [("Content-Type", "application/json")];
     body := JSON_stringify payload |}.

Definition fetchToken (credentials : value) : M unit :=
  emit (EvCall "fetchToken");;
  username ← lift (get_prop credentials "username");
  password ← lift (get_prop credentials "password");
  datetime ← clock (toISOString h);
  let payload := login_payload username password datetime in
  let req := login_request payload in
  out ← ask (fun hist => load h hist req) (EvLoad req);
  match out with
  | LoadFault e => throw e
  | LoadDone resp =>
      if negb (statusCode resp =? 200)
      then throw (JsError ("Failed to fetch token: " +:+ dec (statusCode resp)))
      else cacheDataM "cookies.json" (cookies resp)
  end.

Definition get_request (u : string) (cookie : string) : request :=
  {| url := u; method := "GET"; headers := [("Cookie", cookie)];
     body := None |}.

Definition overview_url : string :=
  "https://api.simpel.nl/account/subscription-overview".

Definition fetchSid (cookies : value) : M unit :=
  emit (EvCall "fetchSid");;
  let url := overview_url in
  cookie ← lift (cookie_header cookies);
  let req := get_request url cookie in
  out ← ask (fun hist => loadJSON h hist req) (EvLoadJSON req);
  match out with
  | JsonFault e => throw e
  | JsonDone _ json =>
      mainSubscription ← lift (get_prop json "mainSubscription");
      subscriptionId ← lift (get_prop mainSubscription "subscriptionId");
      cacheDataM "sid.json" subscriptionId
  end.

Definition error_payload (code : Z) : value := VObj [("errorCode", VNum code)].

Definition usage_url (sid : value) : string :=
  "https://mijn.simpel.nl/api/usage/usage-summary?sid=" +:+ js_to_string sid.

(** The body of the [try] block of [fetchData]. *)
Definition fetchData_try (sid cookies : value) : M value :=
  let url := usage_url sid in
  cookie ← lift (cookie_header cookies);
  let req := get_request url cookie in
  out ← ask (fun hist => load h hist req) (EvLoad req);
  match out with
  | LoadFault e => throw e
  | LoadDone resp =>
      if statusCode resp =? 200 then
        out' ← ask (fun hist => loadJSON h hist req) (EvLoadJSON req);
        match out' with
        | JsonFault e => throw e
        | JsonDone _ json => set_global_json json;; mret json
        end
      else
        emit (EvConsoleError
                ("Request failed with status: " +:+ dec (statusCode resp)));;
        mret (error_payload (statusCode resp))
  end.

Definition fetchData (sid cookies : value) : M value :=
  emit (EvCall "fetchData");;
  try_catch (fetchData_try sid cookies)
    (fun error =>
       emit (EvConsoleError (exn_text error));;
       mret (error_payload (-1))).

Definition infinity_sign : string := "‚àû".

(** The text that [addUsage] puts on the stack. *)
Definition addUsage (icon : string) (data : value) : result string :=
  type ← get_prop data "type";
  if strict_eq_string type "unlimited"
  then Ok (icon +:+ " " +:+ infinity_sign)
  else
    amount ← get_prop data "amount";
    totalAmount ← get_prop data "totalAmount";
    Ok (icon +:+ " " +:+ js_to_string amount +:+ "/" +:+ js_to_string totalAmount).

Definition COLORS_standard : string * string := ("#79248C", "#50185c").
Definition COLORS_error : string * string := ("#D44646", "#822424").

Definition icon_data : string := "üì∂ ".
Definition icon_sms : string := "üí¨ ".
Definition icon_voice : string := "‚òéÔ∏è ".

(** The part of [run] after the usage was fetched: the widget. *)
Definition present (json : value) : M unit :=
  errorCode ← lift (get_prop json "errorCode");
  '(colors, stack) ←
    (if is_undefined errorCode then
       data ← lift (get_prop json "data");
       t1 ← lift (addUsage icon_data data);
       sms ← lift (get_prop json "sms");
       t2 ← lift (addUsage icon_sms sms);
       voice ← lift (get_prop json "voice");
       t3 ← lift (addUsage icon_voice voice);
       mret (COLORS_standard, [t1; t2; t3])
     else
       mret (COLORS_error,
             ["Error loading data (" +:+ js_to_string errorCode +:+ ")"]));
  stamp ← clock (toLocaleString h);
  let w := {| lines := stack; lastUpdate := "Updated at: " +:+ stamp;
              gradient := colors |} in
  (if runsInApp h then emit (EvPresentSmall w) else mret tt);;
  emit (EvSetWidget w);;
  emit EvComplete.

Definition run : M unit :=
  emit (EvCall "run");;
  credentials ← getCachedDataM "credentials.json";
  credentials ←
    (if is_undefined credentials then
       credentials ← promptForCredentials;
       cacheDataM "credentials.json" credentials;;
       mret credentials
     else mret credentials);
  cookies ← getCachedDataM "cookies.json";
  cookies ←
    (if is_undefined cookies then
       fetchToken credentials;;
       getCachedDataM "cookies.json"
     else mret cookies);
  sid ← getCachedDataM "sid.json";
  sid ←
    (if is_undefined sid then
       fetchSid cookies;;
       getCachedDataM "sid.json"
     else mret sid);
  json ← fetchData sid cookies;
  present json.
End Script.

(** ** Notions used to state the properties *)

(** The JSON-serializable values: no [undefined] anywhere, integers that a
    JavaScript number holds exactly, no key twice in an object. *)
Definition safe_integer (n : Z) : bool :=
  (- (2 ^ 53 - 1) <=? n) && (n <=? 2 ^ 53 - 1).

Fixpoint serializable (v : value) : bool :=
  match v with
  | VUndefined => false
  | VNull | VBool _ | VStr _ => true
  | VNum n => safe_integer n
  | VArr l => forallb serializable l
  | VObj ps =>
      bool_decide (NoDup (map fst ps))
      && forallb (fun kv => serializable (snd kv)) ps
  end.

(** A sequence of session cookies, as the data model has it: an array of
    objects with a string [name] and a string [value] (and whatever other
    properties the host adds). *)
Definition cookie_of (c : value) : option (string * string) :=
  match c with
  | VObj ps =>
      match lookup_prop "name" ps, lookup_prop "value" ps with
      | VStr n, VStr v => Some (n, v)
      | _, _ => None
      end
  | _ => None
  end.

Definition cookies_of (cookies : value) : option (list (string * string)) :=
  match cookies with
  | VArr l => mapM cookie_of l
  | _ => None
  end.

(** The header as the specification words it: the [name=value] pairs,
    separated by a semicolon and a space, in the order of the sequence. *)
Definition spec_cookie_header (cs : list (string * string)) : string :=
  String.concat "; " (map (fun c => fst c +:+ "=" +:+ snd c) cs).

(** A history of cache writes. *)
Fixpoint writes (ops : list (string * value)) (st : storage) : storage :=
  match ops with
  | [] => st
  | (n, v) :: r => writes r (snd (cacheData n v st))
  end.

Definition empty_storage (docs : string) : storage :=
  {| documents := docs; files := ∅; dirs := ∅ |}.

(** The network requests of a history, oldest first. *)
Definition request_of (ev : event) : option request :=
  match ev with
  | EvLoad req | EvLoadJSON req => Some req
  | _ => None
  end.

Definition requests (hist : list event) : list request :=
  omap request_of (rev hist).

(** Events that belong to the Session Acquirer: its entry and a request to
    the login endpoint. *)
Definition is_login (ev : event) : bool :=
  match ev with
  | EvCall fn => String.eqb fn "fetchToken"
  | EvLoad req | EvLoadJSON req => String.eqb (url req) login_url
  | _ => false
  end.

Definition has_cookies (w : world) : Prop :=
  fileExists (cacheFile "cookies.json" (store w)) (store w) = true.

(** [w'] is [w] after some more events, none of the Session Acquirer. *)
Definition extends (w w' : world) : Prop :=
  exists evs, history w' = evs ++ history w
              /\ Forall (fun ev => is_login ev = false) evs.

(** The field that the Subscription Resolver expects in the overview: a
    main-subscription object with a subscription id. *)
Definition subscription_id_field (json : value) : option value :=
  match json with
  | VObj ps =>
      match lookup_prop "mainSubscription" ps with
      | VObj qs =>
          match lookup_prop "subscriptionId" qs with
          | VUndefined => None
          | v => Some v
          end
      | _ => None
      end
  | _ => None
  end.

(** A computation that keeps the cached cookies, adds no event of the
    Session Acquirer, and whose result satisfies [Q]. *)
Definition stage {A} (m : M A) (Q : A -> Prop) : Prop :=
  forall w, has_cookies w ->
    has_cookies (snd (m w)) /\ extends w (snd (m w)) /\
    match fst (m w) with Ok a => Q a | Throw _ => True end.

(** ** Sample inputs *)

Definition st0 : storage := empty_storage "/iCloud".

Definition creds : value :=
  VObj [("username", VStr "jan"); ("password", VStr "geheim")].

Definition w0 : world :=
  {| store := st0; history := []; global_json := VUndefined |}.

Definition cookies0 : value :=
  VArr [VObj [("name", VStr "sess"); ("value", VStr "abc")]].

Definition w_cookies : world :=
  {| store := snd (cacheData "cookies.json" cookies0 st0); history := [];
     global_json := VUndefined |}.

Definition w_cached : world :=
  {| store := writes [("credentials.json", creds); ("cookies.json", cookies0);
                      ("sid.json", VStr "SUB123")] st0;
     history := []; global_json := VUndefined |}.

Definition resp403 : response := {| statusCode := 403; cookies := VArr [] |}.

Definition resp200 : response := {| statusCode := 200; cookies := cookies0 |}.

(** A host whose operator cancels the alert, whose login and usage
    endpoints answer 403 and whose overview lacks the subscription id. *)
Definition host_refusing : host :=
  {| presentAlert := fun _ => {| chosen := -1; textFields := [] |};
     load := fun _ _ => LoadDone resp403;
     loadJSON := fun _ _ => JsonDone resp200 (VObj [("mainSubscription", VObj [])]);
     toISOString := fun _ => "2024-05-01T10:00:00.000Z";
     toLocaleString := fun _ => "01/05/2024, 12:00:00";
     runsInApp := false |}.

(** The usage summary of the success scenario. *)
Definition usage_summary : value :=
  VObj [("data", VObj [("type", VStr "data"); ("amount", VNum 5);
                       ("totalAmount", VNum 10)]);
        ("sms", VObj [("type", VStr "unlimited")]);
        ("voice", VObj [("type", VStr "voice"); ("amount", VNum 30);
                        ("totalAmount", VNum 120)])].

(** A host on which everything succeeds. *)
Definition host_ok : host :=
  {| presentAlert := fun _ => {| chosen := 0; textFields := ["jan"; "geheim"] |};
     load := fun _ _ => LoadDone resp200;
     loadJSON := fun _ req =>
       if String.eqb (url req) overview_url
       then JsonDone resp200
              (VObj [("mainSubscription",
                      VObj [("subscriptionId", VStr "SUB123")])])
       else JsonDone resp200 usage_summary;
     toISOString := fun _ => "2024-05-01T10:00:00.000Z";
     toLocaleString := fun _ => "01/05/2024, 12:00:00";
     runsInApp := false |}.

(** A host without a network connection. *)
Definition host_offline : host :=
  {| presentAlert := fun _ => {| chosen := 0; textFields := ["jan"; "geheim"] |};
     load := fun _ _ => LoadFault (HostError "The Internet connection appears to be offline.");
     loadJSON := fun _ _ => JsonFault (HostError "The Internet connection appears to be offline.");
     toISOString := fun _ => "2024-05-01T10:00:00.000Z";
     toLocaleString := fun _ => "01/05/2024, 12:00:00";
     runsInApp := false |}.

(** ** Notions used to state the further properties *)

(** [m] leaves every world in a world related to it by [R]. *)
Definition keeps (R : world -> world -> Prop) {A} (m : M A) : Prop :=
  forall w, R w (snd (m w)).

(** The same store, and some more events, all of them allowed by [ok]. *)
Definition only_events (ok : event -> bool) (w w' : world) : Prop :=
  store w' = store w /\
  exists evs, history w' = evs ++ history w /\ forallb ok evs = true.

(** Events that reach nobody outside: no alert, no network request. *)
Definition is_silent (ev : event) : bool :=
  match ev with
  | EvAlert | EvLoad _ | EvLoadJSON _ => false
  | _ => true
  end.

(** Events that the Usage Fetcher may add for the subscription [sid]: no
    alert, and requests to the usage endpoint only. *)
Definition is_usage (sid : value) (ev : event) : bool :=
  match ev with
  | EvAlert => false
  | EvLoad req | EvLoadJSON req => String.eqb (url req) (usage_url sid)
  | _ => true
  end.

(** Events that stay on the device: no network request. *)
Definition is_local (ev : event) : bool :=
  match ev with
  | EvLoad _ | EvLoadJSON _ => false
  | _ => true
  end.

(** What the script may do to the storage when it writes under [names]
    only: the documents directory stays, the only directory that may
    appear is the cache directory, no file disappears, and no file but
    those of [names] changes. *)
Definition writes_only (names : list string) (w w' : world) : Prop :=
  documents (store w') = documents (store w) /\
  (dirs (store w') = dirs (store w) \/
   dirs (store w') = {[cacheDirectory (store w)]} ∪ dirs (store w)) /\
  (forall p, is_Some (files (store w) !! p) -> is_Some (files (store w') !! p)) /\
  (forall p, (forall n, n ∈ names -> p <> cacheFile n (store w)) ->
             files (store w') !! p = files (store w) !! p).

(** The artifact [name] is in the cache and reads as [v]. *)
Definition cached (name : string) (v : value) (w : world) : Prop :=
  getCachedData name (store w) = Ok v /\ is_undefined v = false.

Definition nullish (v : value) : bool :=
  match v with VUndefined | VNull => true | _ => false end.

(** The widget of the error branch of [run]. *)
Definition error_widget (code : Z) (stamp : string) : widget :=
  {| lines := ["Error loading data (" +:+ dec code +:+ ")"];
     lastUpdate := "Updated at: " +:+ stamp;
     gradient := COLORS_error |}.

Definition is_array (v : value) : bool :=
  match v with VArr _ => true | _ => false end.

(** The world in which [run] has just been entered. *)
Definition entered (w : world) : world :=
  {| store := store w; history := EvCall "run" :: history w;
     global_json := global_json w |}.

Definition three_names : list string :=
  ["credentials.json"; "cookies.json"; "sid.json"].

(** The paths of the three cached documents. *)
Definition cache_paths (st : storage) : list string :=
  [cacheFile "credentials.json" st; cacheFile "cookies.json" st;
   cacheFile "sid.json" st].

(** ** Further sample inputs *)

(** A storage that holds the credentials only. *)
Definition w_creds : world :=
  {| store := snd (cacheData "credentials.json" creds st0); history := [];
     global_json := VUndefined |}.

(** A host whose operator types credentials that the login refuses. *)
Definition host_wrong_password : host :=
  {| presentAlert := fun _ => {| chosen := 0; textFields := ["jan"; "geheim"] |};
     load := fun _ _ => LoadDone resp403;
     loadJSON := fun _ _ => JsonFault (HostError "Not reached.");
     toISOString := fun _ => "2024-05-01T10:00:00.000Z";
     toLocaleString := fun _ => "01/05/2024, 12:00:00";
     runsInApp := false |}.

(** A storage that holds the credentials and the cookies. *)
Definition w_cookies_creds : world :=
  {| store := writes [("credentials.json", creds); ("cookies.json", cookies0)] st0;
     history := []; global_json := VUndefined |}.

(** A text that no JSON reader accepts, for it is blank or begins, after
    white space, with a character with which no JSON value begins. *)
Definition starts_no_value (t : string) : bool :=
  match skip_ws t with
  | EmptyString => true
  | String c _ =>
      negb (Ascii.eqb c "n" || Ascii.eqb c "t" || Ascii.eqb c "f"
            || Ascii.eqb c dquote || Ascii.eqb c "[" || Ascii.eqb c "{"
            || Ascii.eqb c "-" || is_digit c)
  end.

(** A storage in which [credentials.json] was damaged. *)
Definition w_corrupt : world :=
  {| store := {| documents := "/iCloud";
                 files := {[joinPath (joinPath "/iCloud" "bluewalk/mijnsimpel")
                              "credentials.json" := "<html>"]};
                 dirs := {[joinPath "/iCloud" "bluewalk/mijnsimpel"]} |};
     history := []; global_json := VUndefined |}.

(** ** Notions used in the proofs about JSON *)

Definition delimited (s : string) : bool :=
  match s with
  | EmptyString => true
  | String c _ => Ascii.eqb c "," || Ascii.eqb c "]" || Ascii.eqb c "}"
  end.

Definition elem_text (e : value) : string := default "null" (JSON_stringify e).

Definition member_text (kv : string * value) : option string :=
  t ← JSON_stringify (snd kv); Some (quote (fst kv) +:+ ":" +:+ t).

Definition mtext (kv : string * value) : string :=
  quote (fst kv) +:+ ":" +:+ elem_text (snd kv).

(** What a text must be like for the reader to give back [v]. *)
Definition reads_back (v : value) (t : string) : Prop :=
  (exists c r, t = String c r /\ is_ws c = false /\
               Ascii.eqb c "]" = false /\ Ascii.eqb c "}" = false) /\
  forall f rest, (String.length t <= f)%nat -> delimited rest = true ->
                 parse_value f (t +:+ rest) = Some (v, rest).

(** * Proofs

    ** The model at work *)

Example stringify_nested :
  JSON_stringify
    (VObj [("a", VNum 1); ("u", VUndefined);
           ("b", VArr [VBool true; VUndefined; VStr "x\y"; VNum (-20)])])
  = Some (String "{" (quote "a" +:+ ":1," +:+ quote "b" +:+ ":[true,null,"
                      +:+ String dquote ("x\\y" +:+ String dquote ",-20]}"))).
Proof. reflexivity. Qed.

Example parse_with_spaces :
  JSON_parse (" [1 , {" +:+ quote "k" +:+ " : [ ]} , -0, null ] ")
  = Ok (VArr [VNum 1; VObj [("k", VArr [])]; VNum 0; VNull]).
Proof. reflexivity. Qed.

Example parse_leading_zero :
  JSON_parse "01" = Throw (SyntaxError "JSON Parse error").
Proof. reflexivity. Qed.

(** A first run on a fresh storage: prompt, login, overview, usage (fetched
    twice, by [load] and by [loadJSON]), and the three artifacts cached. *)
Example run_first_time :
  fst (run host_ok w0) = Ok tt /\
  map url (requests (history (snd (run host_ok w0))))
    = [login_url; overview_url; usage_url (VStr "SUB123");
       usage_url (VStr "SUB123")] /\
  getCachedData "credentials.json" (store (snd (run host_ok w0))) = Ok creds /\
  getCachedData "cookies.json" (store (snd (run host_ok w0))) = Ok cookies0 /\
  getCachedData "sid.json" (store (snd (run host_ok w0))) = Ok (VStr "SUB123").
Proof. vm_compute. repeat split. Qed.

(** The usage success scenario: the summary is returned as it came. *)
Example fetchData_success :
  fst (fetchData host_ok (VStr "SUB123") cookies0 w0) = Ok usage_summary.
Proof. reflexivity. Qed.

(** A later run on the refusing host, with the three artifacts cached: one
    request, the error widget. *)
Example run_error_widget :
  history (snd (run host_refusing w_cached)) =
  [EvComplete;
   EvSetWidget {| lines := ["Error loading data (403)"];
                  lastUpdate := "Updated at: 01/05/2024, 12:00:00";
                  gradient := COLORS_error |};
   EvConsoleError "Request failed with status: 403";
   EvLoad (get_request (usage_url (VStr "SUB123")) "sess=abc");
   EvCall "fetchData";
   EvCall "run"].
Proof. vm_compute. reflexivity. Qed.

(** ** Strings and decimal numbers *)

Lemma app_nil (b : string) : EmptyString +:+ b = b.
Proof. reflexivity. Qed.

Lemma app_cons (x : ascii) (a b : string) : String x a +:+ b = String x (a +:+ b).
Proof. reflexivity. Qed.

Lemma append_assoc (a b c : string) : (a +:+ b) +:+ c = a +:+ (b +:+ c).
Proof.
  induction a as [|x a IH]; [reflexivity|].
  rewrite !app_cons. by rewrite IH.
Qed.

Lemma length_append (a b : string) :
  String.length (a +:+ b) = (String.length a + String.length b)%nat.
Proof.
  induction a as [|x a IH]; [reflexivity|].
  rewrite app_cons. simpl. by rewrite IH.
Qed.

Lemma N_of_digit_char (d : N) : (d < 10)%N -> N_of_ascii (digit_char d) = (48 + d)%N.
Proof. intros H. unfold digit_char. apply N_ascii_embedding. lia. Qed.

Lemma is_digit_digit_char (d : N) : (d < 10)%N -> is_digit (digit_char d) = true.
Proof.
  intros H. unfold is_digit. rewrite N_of_digit_char by done.
  apply andb_true_iff; split; apply N.leb_le; lia.
Qed.

Lemma read_digits_step (a d : N) (s : string) :
  (d < 10)%N ->
  read_digits a (String (digit_char d) s) = read_digits (10 * a + d) s.
Proof.
  intros H. simpl. rewrite is_digit_digit_char by done.
  rewrite N_of_digit_char by done. f_equal. lia.
Qed.

Lemma log2_div10 (n : N) : (n / 10 <> 0)%N -> (N.log2 (n / 10) < N.log2 n)%N.
Proof.
  intros H.
  assert (Hn : (10 <= n)%N).
  { destruct (N.lt_ge_cases n 10) as [Hlt|]; [|done].
    rewrite N.div_small in H by done. done. }
  assert (Hle : (n / 10 <= n / 2)%N).
  { apply N.div_le_compat_l; lia. }
  assert (H2 : (N.log2 (n / 2) < N.log2 n)%N).
  { rewrite <- N.div2_div, N.div2_spec, N.log2_shiftr.
    assert (0 < N.log2 n)%N; [|lia].
    apply N.log2_pos. lia. }
  pose proof (N.log2_le_mono _ _ Hle). lia.
Qed.

Lemma digits_of_acc (f : nat) : forall n acc,
  digits_of f n acc = digits_of f n EmptyString +:+ acc.
Proof.
  induction f as [|f IH]; intros n acc; simpl; [reflexivity|].
  destruct (n / 10 =? 0)%N; [reflexivity|].
  rewrite (IH _ (String _ acc)), (IH _ (String _ EmptyString)).
  by rewrite append_assoc.
Qed.

Lemma read_digits_of (f : nat) : forall n acc,
  (N.log2 n <= N.of_nat f)%N ->
  read_digits 0 (digits_of f n acc) = read_digits n acc.
Proof.
  induction f as [|f IH]; intros n acc Hf.
  - assert (n < 10)%N.
    { destruct (N.lt_ge_cases n 2) as [|Hge]; [lia|].
      apply N.log2_le_mono in Hge. change (N.log2 2) with 1%N in Hge. lia. }
    simpl digits_of. rewrite N.mod_small by done.
    rewrite read_digits_step by done. f_equal.
  - simpl digits_of. destruct (N.eqb_spec (n / 10) 0) as [Hz|Hnz].
    + assert (n < 10)%N.
      { destruct (N.lt_ge_cases n 10) as [|Hge]; [done|].
        pose proof (N.Div0.div_le_mono _ _ 10 Hge) as Hd.
        change (10 / 10)%N with 1%N in Hd. lia. }
      rewrite N.mod_small by done.
      rewrite read_digits_step by done. f_equal.
    + rewrite IH.
      * rewrite read_digits_step by (apply N.mod_lt; lia).
        f_equal. rewrite (N.div_mod n 10) at 3 by lia. lia.
      * pose proof (log2_div10 n Hnz). lia.
Qed.

Lemma read_digits_stop (a : N) (s : string) :
  ends_integer s = true -> read_digits a s = (a, s).
Proof.
  destruct s as [|c r]; [reflexivity|]. simpl. intros H.
  apply negb_true_iff in H. rewrite !orb_false_iff in H.
  destruct H as [[[-> _] _] _]. reflexivity.
Qed.

(** The first digit of a positive number is not a zero. *)
Lemma digits_of_head (f : nat) : forall n acc,
  (N.log2 n <= N.of_nat f)%N -> (0 < n)%N ->
  exists d t, digits_of f n acc = String (digit_char d) t /\ (0 < d < 10)%N.
Proof.
  induction f as [|f IH]; intros n acc Hf Hn.
  - assert (n < 2)%N.
    { destruct (N.lt_ge_cases n 2) as [|Hge]; [done|].
      apply N.log2_le_mono in Hge. change (N.log2 2) with 1%N in Hge. lia. }
    exists n, acc. simpl. rewrite N.mod_small by lia. split; [done|lia].
  - simpl digits_of. destruct (N.eqb_spec (n / 10) 0) as [Hz|Hnz].
    + assert (n < 10)%N.
      { destruct (N.lt_ge_cases n 10) as [|Hge]; [done|].
        pose proof (N.Div0.div_le_mono _ _ 10 Hge) as Hd.
        change (10 / 10)%N with 1%N in Hd. lia. }
      exists n, acc. rewrite N.mod_small by done. split; [done|lia].
    + apply IH; [|by apply N.neq_0_lt_0]. pose proof (log2_div10 n Hnz). lia.
Qed.

Lemma read_nat_dec_N (n : N) (rest : string) :
  ends_integer rest = true ->
  read_nat (dec_N n +:+ rest) = Some (n, rest).
Proof.
  intros Hrest. unfold dec_N. rewrite <- digits_of_acc.
  destruct (N.eq_dec n 0%N) as [->|Hn].
  - reflexivity.
  - destruct (digits_of_head (N.to_nat (N.log2 n)) n rest) as (d & t & Heq & Hd);
      [lia | lia |].
    pose proof (read_digits_of (N.to_nat (N.log2 n)) n rest) as Hread.
    rewrite Heq in *. unfold read_nat.
    rewrite is_digit_digit_char by lia. rewrite N_of_digit_char by lia.
    destruct (N.eqb_spec (48 + d) 48); [lia|].
    rewrite Hread by lia. by rewrite read_digits_stop.
Qed.

Lemma dec_N_head (n : N) (rest : string) :
  exists d t, dec_N n +:+ rest = String (digit_char d) t /\ (d < 10)%N.
Proof.
  unfold dec_N. rewrite <- digits_of_acc.
  destruct (N.eq_dec n 0%N) as [->|Hn].
  - exists 0%N, rest. split; [reflexivity | lia].
  - destruct (digits_of_head (N.to_nat (N.log2 n)) n rest) as (d & t & Heq & Hd);
      [lia | lia |].
    exists d, t. split; [done | lia].
Qed.

Lemma digit_char_not (d : N) (c : ascii) :
  (d < 10)%N -> is_digit c = false -> Ascii.eqb (digit_char d) c = false.
Proof.
  intros Hd Hc. destruct (Ascii.eqb_spec (digit_char d) c) as [<-|]; [|done].
  by rewrite is_digit_digit_char in Hc.
Qed.

Lemma read_number_dec (z : Z) (rest : string) :
  ends_integer rest = true ->
  read_number (dec z +:+ rest) = Some (z, rest).
Proof.
  intros Hrest. unfold dec. destruct (Z.ltb_spec z 0) as [Hneg|Hpos].
  - rewrite app_cons. unfold read_number. simpl Ascii.eqb. cbv iota.
    rewrite read_nat_dec_N by done. simpl. rewrite Hrest.
    do 2 f_equal. lia.
  - destruct (dec_N_head (Z.to_N z) rest) as (d & t & Heq & Hd).
    pose proof (read_nat_dec_N (Z.to_N z) rest Hrest) as Hread.
    rewrite Heq in *. unfold read_number.
    rewrite digit_char_not by done. rewrite Hread. simpl. rewrite Hrest.
    do 2 f_equal. lia.
Qed.

Lemma read_string_escape_char (c : ascii) (tail : string) :
  read_string (escape_char c +:+ tail) =
  '(t, rest) ← read_string tail; Some (String c t, rest).
Proof.
  destruct c as [[] [] [] [] [] [] [] []]; reflexivity.
Qed.

Lemma read_string_escape (s rest : string) :
  read_string (escape s +:+ String dquote rest) = Some (s, rest).
Proof.
  induction s as [|c s IH]; [reflexivity|].
  simpl escape. rewrite append_assoc, read_string_escape_char, IH.
  reflexivity.
Qed.

Lemma value_ind' (P : value -> Prop) :
  P VUndefined -> P VNull -> (forall b, P (VBool b)) -> (forall n, P (VNum n)) ->
  (forall s, P (VStr s)) ->
  (forall l, Forall P l -> P (VArr l)) ->
  (forall ps, Forall (fun kv => P (snd kv)) ps -> P (VObj ps)) ->
  forall v, P v.
Proof.
  intros Hu Hn Hb Hz Hs Ha Ho. fix IH 1. intros [| |b|n|s|l|ps].
  - exact Hu.
  - exact Hn.
  - apply Hb.
  - apply Hz.
  - apply Hs.
  - apply Ha. induction l as [|e l IHl]; constructor; [apply IH | exact IHl].
  - apply Ho. induction ps as [|[k e] ps IHps]; constructor;
      [apply IH | exact IHps].
Qed.

Lemma stringify_arr (l : list value) :
  JSON_stringify (VArr l) = Some ("[" +:+ js_join "," (map elem_text l) +:+ "]").
Proof. reflexivity. Qed.

Lemma stringify_obj (ps : list (string * value)) :
  JSON_stringify (VObj ps) =
  Some ("{" +:+ js_join "," (omap member_text ps) +:+ "}").
Proof.
  simpl. do 4 f_equal. induction ps as [|[k e] ps IH]; [reflexivity|].
  simpl. unfold member_text at 1. simpl. rewrite IH.
  by destruct (JSON_stringify e).
Qed.

Lemma skip_ws_id (c : ascii) (r : string) :
  is_ws c = false -> skip_ws (String c r) = String c r.
Proof. intros H. simpl. by rewrite H. Qed.

Lemma delimited_ends_integer (s : string) :
  delimited s = true -> ends_integer s = true.
Proof.
  destruct s as [|c r]; [done|]. simpl. intros H.
  rewrite !orb_true_iff in H.
  destruct H as [[H|H]|H]; apply Ascii.eqb_eq in H; subst c; reflexivity.
Qed.

Lemma parse_value_S (f : nat) (s : string) :
  parse_value (S f) s =
  match skip_ws s with
  | EmptyString => None
  | String c r =>
      if Ascii.eqb c "n" then r' ← strip_prefix "ull" r; Some (VNull, r')
      else if Ascii.eqb c "t" then r' ← strip_prefix "rue" r; Some (VBool true, r')
      else if Ascii.eqb c "f" then r' ← strip_prefix "alse" r; Some (VBool false, r')
      else if Ascii.eqb c dquote then '(t, r') ← read_string r; Some (VStr t, r')
      else if Ascii.eqb c "[" then
        match skip_ws r with
        | String c' r' =>
            if Ascii.eqb c' "]" then Some (VArr [], r')
            else '(l, r'') ← parse_elems f r; Some (VArr l, r'')
        | EmptyString => None
        end
      else if Ascii.eqb c "{" then
        match skip_ws r with
        | String c' r' =>
            if Ascii.eqb c' "}" then Some (VObj [], r')
            else '(ps, r'') ← parse_members f [] r; Some (VObj ps, r'')
        | EmptyString => None
        end
      else '(n, r') ← read_number (String c r); Some (VNum n, r')
  end.
Proof. reflexivity. Qed.

Lemma parse_elems_S (f : nat) (s : string) :
  parse_elems (S f) s =
  '(v, r) ← parse_value f s;
  match skip_ws r with
  | String c r' =>
      if Ascii.eqb c "," then '(l, r'') ← parse_elems f r'; Some (v :: l, r'')
      else if Ascii.eqb c "]" then Some ([v], r')
      else None
  | EmptyString => None
  end.
Proof. reflexivity. Qed.

Lemma parse_members_S (f : nat) (acc : list (string * value)) (s : string) :
  parse_members (S f) acc s =
  match skip_ws s with
  | String q r =>
      if Ascii.eqb q dquote then
        '(k, r1) ← read_string r;
        match skip_ws r1 with
        | String c r2 =>
            if Ascii.eqb c ":" then
              '(v, r3) ← parse_value f r2;
              let acc' := obj_set k v acc in
              match skip_ws r3 with
              | String c' r4 =>
                  if Ascii.eqb c' "," then parse_members f acc' r4
                  else if Ascii.eqb c' "}" then Some (acc', r4)
                  else None
              | EmptyString => None
              end
            else None
        | EmptyString => None
        end
      else None
  | EmptyString => None
  end.
Proof. reflexivity. Qed.

Lemma number_head (c : ascii) :
  Ascii.eqb c "-" = true \/ is_digit c = true ->
  is_ws c = false /\ Ascii.eqb c "]" = false /\ Ascii.eqb c "}" = false /\
  Ascii.eqb c "n" = false /\ Ascii.eqb c "t" = false /\ Ascii.eqb c "f" = false /\
  Ascii.eqb c dquote = false /\ Ascii.eqb c "[" = false /\ Ascii.eqb c "{" = false.
Proof.
  intros H.
  assert (Hne : forall x, Ascii.eqb x "-" = false -> is_digit x = false ->
                          Ascii.eqb c x = false).
  { intros x Hx1 Hx2. destruct (Ascii.eqb_spec c x) as [->|]; [|done].
    destruct H; congruence. }
  repeat split; try (apply Hne; reflexivity).
  destruct H as [H|H].
  - apply Ascii.eqb_eq in H. by subst.
  - unfold is_digit in H. unfold is_ws.
    apply andb_true_iff in H as [H1 H2]. apply N.leb_le in H1.
    rewrite !orb_false_iff. repeat split; apply N.eqb_neq; lia.
Qed.

Lemma dec_head (z : Z) (rest : string) :
  exists c r, dec z +:+ rest = String c r /\
              (Ascii.eqb c "-" = true \/ is_digit c = true).
Proof.
  unfold dec. destruct (z <? 0).
  - eexists _, _. rewrite app_cons. split; [reflexivity|]. by left.
  - destruct (dec_N_head (Z.to_N z) rest) as (d & t & Heq & Hd).
    exists (digit_char d), t. split; [done|]. right.
    by apply is_digit_digit_char.
Qed.

Lemma dec_nonempty (z : Z) : (0 < String.length (dec z))%nat.
Proof.
  destruct (dec_head z EmptyString) as (c & r & Heq & _).
  destruct (dec z); [done | simpl; lia].
Qed.

Lemma reads_back_num (n : Z) : reads_back (VNum n) (dec n).
Proof.
  split.
  - destruct (dec_head n EmptyString) as (c & r & Heq & Hc).
    apply number_head in Hc as (? & ? & ? & _).
    destruct (dec n) as [|c0 r0]; [done|].
    rewrite app_cons in Heq. injection Heq as <- _. by exists c0, r0.
  - intros f rest Hf Hrest.
    destruct (dec_head n rest) as (c & r & Heq & Hc).
    pose proof (read_number_dec n rest (delimited_ends_integer _ Hrest)) as Hread.
    apply number_head in Hc as (? & ? & ? & ? & ? & ? & ? & ? & ?).
    destruct f as [|f].
    { pose proof (dec_nonempty n). lia. }
    rewrite parse_value_S, Heq in *. rewrite skip_ws_id by done.
    repeat match goal with H : Ascii.eqb c _ = false |- _ => rewrite H; clear H end.
    rewrite Hread. reflexivity.
Qed.

Lemma js_join_cons2 (sep x y : string) (r : list string) :
  js_join sep (x :: y :: r) = x +:+ sep +:+ js_join sep (y :: r).
Proof. reflexivity. Qed.

Local Ltac norm_app :=
  repeat first [rewrite append_assoc | rewrite app_cons | rewrite app_nil].

Local Ltac side := first [reflexivity | done | lia | simpl in *; lia].

Lemma parse_elems_ok (l : list value) :
  l <> [] -> Forall (fun e => reads_back e (elem_text e)) l ->
  forall f rest,
    (String.length (js_join "," (map elem_text l)) < f)%nat ->
    parse_elems f (js_join "," (map elem_text l) +:+ String "]" rest)
    = Some (l, rest).
Proof.
  intros Hne Hall. induction Hall as [|e l He Hall IH]; [done|].
  clear Hne. intros f rest Hf. destruct f as [|f]; [lia|].
  rewrite parse_elems_S. destruct l as [|e' l].
  - simpl in *. destruct He as [_ He].
    rewrite He by side. reflexivity.
  - cbn [map] in *. rewrite js_join_cons2 in *.
    rewrite !length_append in Hf. rewrite !append_assoc.
    destruct He as [_ He]. rewrite app_cons, app_nil.
    rewrite He by side. simpl.
    rewrite IH by side. reflexivity.
Qed.

Lemma obj_set_fresh (k : string) (v : value) (acc : list (string * value)) :
  k ∉ map fst acc -> obj_set k v acc = acc ++ [(k, v)].
Proof.
  induction acc as [|[k' v'] acc IH]; [done|].
  simpl. intros Hk. apply not_elem_of_cons in Hk as [Hne Hk].
  destruct (String.eqb_spec k k'); [done|]. by rewrite IH.
Qed.

Lemma parse_members_step (f : nat) (acc : list (string * value))
    (k : string) (e : value) (tail : string) :
  reads_back e (elem_text e) -> (String.length (elem_text e) <= f)%nat ->
  delimited tail = true ->
  parse_members (S f) acc (mtext (k, e) +:+ tail) =
  match tail with
  | String c r =>
      if Ascii.eqb c "," then parse_members f (obj_set k e acc) r
      else if Ascii.eqb c "}" then Some (obj_set k e acc, r)
      else None
  | EmptyString => None
  end.
Proof.
  intros [_ He] Hf Htail. rewrite parse_members_S.
  unfold mtext, quote. cbn [fst snd]. norm_app.
  rewrite (skip_ws_id dquote) by done. simpl Ascii.eqb. cbv iota.
  rewrite read_string_escape. simpl.
  rewrite He by done. simpl.
  destruct tail as [|c r]; [done|]. simpl in Htail.
  rewrite skip_ws_id; [done|].
  rewrite !orb_true_iff in Htail.
  destruct Htail as [[H|H]|H]; apply Ascii.eqb_eq in H; by subst c.
Qed.

Lemma parse_members_ok (ps : list (string * value)) :
  ps <> [] -> Forall (fun kv => reads_back (snd kv) (elem_text (snd kv))) ps ->
  forall acc f rest,
    NoDup (map fst (acc ++ ps)) ->
    (String.length (js_join "," (map mtext ps)) < f)%nat ->
    parse_members f acc (js_join "," (map mtext ps) +:+ String "}" rest)
    = Some (acc ++ ps, rest).
Proof.
  intros Hne Hall. induction Hall as [|[k e] ps He Hall IH]; [done|].
  clear Hne. intros acc f rest Hnd Hf. destruct f as [|f]; [lia|].
  assert (Hk : k ∉ map fst acc).
  { rewrite map_app in Hnd. apply NoDup_app in Hnd as (_ & Hd & _).
    intros Hin. apply (Hd k Hin). simpl. left. }
  cbn [snd] in He. destruct ps as [|kv' ps].
  - cbn [map js_join] in *. unfold mtext at 1 in Hf. cbn [fst snd] in Hf.
    rewrite !length_append in Hf.
    rewrite parse_members_step by side. simpl.
    by rewrite obj_set_fresh.
  - cbn [map] in *. rewrite js_join_cons2 in *. unfold mtext at 1 in Hf.
    cbn [fst snd] in Hf. rewrite !length_append in Hf.
    rewrite (append_assoc (mtext _)), app_cons, app_nil.
    rewrite parse_members_step by side.
    rewrite app_cons. cbv beta iota. simpl Ascii.eqb. cbv iota.
    rewrite obj_set_fresh by done.
    rewrite IH; [by rewrite <- app_assoc | done | | side].
    by rewrite <- app_assoc.
Qed.

Lemma omap_member_text (ps : list (string * value)) :
  Forall (fun kv => is_Some (JSON_stringify (snd kv))) ps ->
  omap member_text ps = map mtext ps.
Proof.
  induction 1 as [|[k e] ps [t Ht] _ IH]; [done|].
  cbn [snd] in Ht. cbn [omap list_omap map]. rewrite IH.
  unfold member_text at 1. cbn [fst snd]. rewrite Ht.
  unfold mtext, elem_text. cbn [fst snd]. rewrite Ht. reflexivity.
Qed.

Lemma stringify_reads_back (v : value) :
  serializable v = true ->
  exists t, JSON_stringify v = Some t /\ reads_back v t.
Proof.
  induction v as [| |b|n|s|l IH|ps IH] using value_ind'; intros Hser.
  - done.
  - exists "null". split; [done|]. split; [by eexists _, _|].
    intros [|f] rest Hf _; [simpl in Hf; lia | reflexivity].
  - destruct b.
    + exists "true". split; [done|]. split; [by eexists _, _|].
      intros [|f] rest Hf _; [simpl in Hf; lia | reflexivity].
    + exists "false". split; [done|]. split; [by eexists _, _|].
      intros [|f] rest Hf _; [simpl in Hf; lia | reflexivity].
  - exists (dec n). split; [done|]. apply reads_back_num.
  - exists (quote s). split; [done|]. split; [by eexists _, _|].
    intros [|f] rest Hf _; [simpl in Hf; lia|].
    rewrite parse_value_S. unfold quote. rewrite app_cons.
    rewrite skip_ws_id by done. simpl Ascii.eqb. cbv iota.
    rewrite append_assoc, app_cons, app_nil, read_string_escape. reflexivity.
  - rewrite stringify_arr. eexists. split; [done|].
    split; [by eexists _, _|].
    assert (Hall : Forall (fun e => reads_back e (elem_text e)) l).
    { simpl in Hser. rewrite forallb_forall in Hser.
      rewrite Forall_forall in IH |- *. intros e He.
      destruct (IH e He) as (t & Ht & Hrb).
      - apply Hser. by apply list_elem_of_In.
      - unfold elem_text. by rewrite Ht. }
    intros [|f] rest Hf _; [simpl in Hf; lia|].
    destruct l as [|e l]; [reflexivity|].
    rewrite parse_value_S. norm_app.
    rewrite (skip_ws_id "[") by done. simpl Ascii.eqb. cbv iota.
    assert (Hhead : exists c r,
               js_join "," (map elem_text (e :: l)) +:+ String "]" rest
               = String c r /\ is_ws c = false /\ Ascii.eqb c "]" = false).
    { apply Forall_cons in Hall as [[(c & r & Hc & ? & ? & _) _] _].
      destruct l; cbn [map]; [simpl js_join | rewrite js_join_cons2];
        rewrite Hc, !app_cons; by eexists _, _. }
    destruct Hhead as (c & r & Hc & Hws & Hbr).
    rewrite Hc, (skip_ws_id c), Hbr, <- Hc by done.
    rewrite !length_append in Hf. cbn [String.length] in Hf.
    rewrite parse_elems_ok by side. reflexivity.
  - rewrite stringify_obj. simpl in Hser.
    apply andb_true_iff in Hser as [Hnd Hser]. apply bool_decide_eq_true_1 in Hnd.
    assert (Hall : Forall (fun kv => reads_back (snd kv) (elem_text (snd kv))) ps
                   /\ Forall (fun kv => is_Some (JSON_stringify (snd kv))) ps).
    { rewrite forallb_forall in Hser.
      rewrite Forall_forall in IH.
      split; apply Forall_forall; intros kv Hkv;
        (destruct (IH kv Hkv) as (t & Ht & Hrb);
         [apply Hser; by apply list_elem_of_In|]).
      - unfold elem_text. by rewrite Ht.
      - by rewrite Ht. }
    destruct Hall as [Hall Hsome]. rewrite omap_member_text by done.
    eexists. split; [done|]. split; [by eexists _, _|].
    intros [|f] rest Hf _; [simpl in Hf; lia|].
    destruct ps as [|kv ps]; [reflexivity|].
    rewrite parse_value_S. norm_app.
    rewrite (skip_ws_id "{") by done. simpl Ascii.eqb. cbv iota.
    assert (Hhead : exists r,
               js_join "," (map mtext (kv :: ps)) +:+ String "}" rest
               = String dquote r).
    { destruct ps; cbn [map]; [simpl js_join | rewrite js_join_cons2];
        unfold mtext at 1, quote at 1; rewrite !app_cons; by eexists. }
    destruct Hhead as (r & Hc).
    rewrite Hc, (skip_ws_id dquote) by done. simpl Ascii.eqb. cbv iota.
    rewrite <- Hc.
    rewrite !length_append in Hf. cbn [String.length] in Hf.
    rewrite (parse_members_ok (kv :: ps) ltac:(done) Hall []);
      [reflexivity | exact Hnd | side].
Qed.

Theorem parse_stringify (v : value) :
  serializable v = true ->
  exists t, JSON_stringify v = Some t /\ JSON_parse t = Ok v.
Proof.
  intros Hser. destruct (stringify_reads_back v Hser) as (t & Ht & _ & Hrb).
  exists t. split; [done|]. unfold JSON_parse.
  specialize (Hrb (String.length t) EmptyString (le_n _) eq_refl).
  assert (Hnil : t +:+ EmptyString = t).
  { clear. induction t as [|c t IH]; [done|]. by rewrite app_cons, IH. }
  rewrite Hnil in Hrb. rewrite Hrb. reflexivity.
Qed.

(** ** The cache store *)

Lemma joinPath_inj (d a b : string) : joinPath d a = joinPath d b -> a = b.
Proof.
  unfold joinPath. intros H.
  apply (inj (String.append d)) in H. by injection H.
Qed.

Lemma joinPath_ne (d a : string) : joinPath d a <> d.
Proof.
  unfold joinPath. intros H. apply (f_equal String.length) in H.
  rewrite !length_append in H. simpl in H. lia.
Qed.

Lemma cacheData_documents (n : string) (v : value) (st : storage) :
  documents (snd (cacheData n v st)) = documents st.
Proof.
  unfold cacheData, writeString.
  destruct (JSON_stringify v), (negb (fileExists (cacheDirectory st) st));
    reflexivity.
Qed.

Lemma cacheData_files (n : string) (v : value) (st : storage) :
  files (snd (cacheData n v st)) =
  match JSON_stringify v with
  | Some t => <[cacheFile n st := t]> (files st)
  | None => files st
  end.
Proof.
  unfold cacheData, writeString.
  destruct (JSON_stringify v), (negb (fileExists (cacheDirectory st) st));
    reflexivity.
Qed.

Lemma cacheData_dirs (n : string) (v : value) (st : storage) :
  dirs (snd (cacheData n v st)) = dirs st \/
  dirs (snd (cacheData n v st)) = {[cacheDirectory st]} ∪ dirs st.
Proof.
  unfold cacheData, writeString.
  destruct (JSON_stringify v), (negb (fileExists (cacheDirectory st) st));
    simpl; auto.
Qed.

Lemma cacheFile_cacheData (m n : string) (v : value) (st : storage) :
  cacheFile m (snd (cacheData n v st)) = cacheFile m st.
Proof. unfold cacheFile, cacheDirectory. by rewrite cacheData_documents. Qed.

Lemma fileExists_spec (p : string) (st : storage) :
  fileExists p st = true <-> is_Some (files st !! p) \/ p ∈ dirs st.
Proof.
  unfold fileExists. rewrite orb_true_iff, !bool_decide_eq_true. tauto.
Qed.

(** A write under one name does not change what exists under another. *)
Lemma fileExists_cacheData_ne (m n : string) (v : value) (st : storage) :
  n <> m ->
  fileExists (cacheFile m st) (snd (cacheData n v st))
  = fileExists (cacheFile m st) st.
Proof.
  intros Hne. apply eq_true_iff_eq. rewrite !fileExists_spec, cacheData_files.
  assert (Hp : cacheFile n st <> cacheFile m st).
  { intros H. by apply joinPath_inj in H. }
  assert (Hd : cacheFile m st <> cacheDirectory st) by apply joinPath_ne.
  assert (Hf : forall t, <[cacheFile n st := t]> (files st) !! cacheFile m st
                         = files st !! cacheFile m st).
  { intros t. by apply lookup_insert_ne. }
  destruct (cacheData_dirs n v st) as [-> | ->];
    destruct (JSON_stringify v); rewrite ?Hf, ?elem_of_union, ?elem_of_singleton;
    tauto.
Qed.

Lemma getCachedData_cacheData_ne (m n : string) (v : value) (st : storage) :
  n <> m ->
  getCachedData m (snd (cacheData n v st)) = getCachedData m st.
Proof.
  intros Hne. unfold getCachedData, readString.
  rewrite cacheFile_cacheData, fileExists_cacheData_ne by done.
  rewrite cacheData_files.
  assert (Hp : cacheFile n st <> cacheFile m st).
  { intros H. by apply joinPath_inj in H. }
  destruct (JSON_stringify v); [|done].
  by rewrite lookup_insert_ne.
Qed.

(** C8. Cache round trip: for every JSON-serializable value [v] and every
    name [n], [cacheData n v] succeeds and a following [getCachedData n]
    returns [v] itself (equality of [value] trees is deep equality). *)
Theorem cache_round_trip (n : string) (v : value) (st : storage) :
  serializable v = true ->
  fst (cacheData n v st) = Ok tt /\
  getCachedData n (snd (cacheData n v st)) = Ok v.
Proof.
  intros Hser. destruct (parse_stringify v Hser) as (t & Ht & Hparse).
  split.
  - unfold cacheData, writeString. by rewrite Ht.
  - unfold getCachedData, readString, fileExists.
    rewrite cacheFile_cacheData, cacheData_files, Ht, lookup_insert_eq.
    rewrite bool_decide_eq_true_2 by eauto. exact Hparse.
Qed.

Lemma cache_round_trip_witness :
  fst (cacheData "credentials.json" creds st0) = Ok tt /\
  getCachedData "credentials.json" (snd (cacheData "credentials.json" creds st0))
  = Ok creds.
Proof. apply cache_round_trip. vm_compute. reflexivity. Defined.

Lemma fileExists_writes (ops : list (string * value)) : forall (st : storage) (n : string),
  Forall (fun op => fst op <> n) ops ->
  fileExists (cacheFile n st) st = false ->
  cacheFile n (writes ops st) = cacheFile n st /\
  fileExists (cacheFile n st) (writes ops st) = false.
Proof.
  induction ops as [|[m v] ops IH]; intros st n Hops Hfresh; [done|].
  apply Forall_cons in Hops as [Hm Hops]. simpl in *.
  destruct (IH (snd (cacheData m v st)) n Hops) as [H1 H2].
  - by rewrite cacheFile_cacheData, fileExists_cacheData_ne.
  - rewrite cacheFile_cacheData in *. done.
Qed.

(** C9. Cache miss: for a name [n] under which nothing exists in the
    storage and that no later [cacheData] is given, [getCachedData n] returns
    [undefined], the absent marker, as a value and not as a fault. *)
Theorem cache_miss (st : storage) (ops : list (string * value)) (n : string) :
  fileExists (cacheFile n st) st = false ->
  Forall (fun op => fst op <> n) ops ->
  getCachedData n (writes ops st) = Ok VUndefined.
Proof.
  intros Hfresh Hops. destruct (fileExists_writes ops st n Hops Hfresh) as [H1 H2].
  unfold getCachedData. by rewrite H1, H2.
Qed.

Lemma cache_miss_witness :
  getCachedData "sid.json"
    (writes [("credentials.json", creds); ("cookies.json", VArr [])] st0)
  = Ok VUndefined.
Proof.
  apply cache_miss; [vm_compute; reflexivity|].
  repeat constructor; simpl; discriminate.
Defined.

(** C10. Frame: for distinct names [n] and [m], [cacheData n v] leaves the
    result of [getCachedData m] as it was, whatever [v] is; and
    [getCachedData] returns the world it was given, so that it changes
    nothing in the store. *)
Theorem cache_frame (n m : string) (v : value) (st : storage) :
  n <> m ->
  getCachedData m (snd (cacheData n v st)) = getCachedData m st /\
  forall w, snd (getCachedDataM m w) = w.
Proof.
  intros Hne. split; [by apply getCachedData_cacheData_ne | reflexivity].
Qed.

Lemma cache_frame_witness :
  getCachedData "cookies.json" (store w_cookies) = Ok cookies0 /\
  getCachedData "cookies.json"
    (snd (cacheData "sid.json" (VStr "SUB123") (store w_cookies)))
    = getCachedData "cookies.json" (store w_cookies) /\
  forall w, snd (getCachedDataM "cookies.json" w) = w.
Proof.
  split; [vm_compute; reflexivity|].
  apply cache_frame. vm_compute. discriminate.
Defined.
Lemma cacheDataM_eq (n : string) (v : value) (w : world) :
  cacheDataM n v w =
  (fst (cacheData n v (store w)),
   {| store := snd (cacheData n v (store w)); history := history w;
      global_json := global_json w |}).
Proof. unfold cacheDataM. by destruct (cacheData n v (store w)). Qed.

(** ** The cookie header *)

Lemma concat_js_join (sep : string) (l : list string) :
  String.concat sep l = js_join sep l.
Proof.
  induction l as [|x [|y l] IH]; [reflexivity | reflexivity |].
  change (String.concat sep (x :: y :: l))
    with (x +:+ sep +:+ String.concat sep (y :: l)).
  by rewrite IH.
Qed.

Lemma cookie_pair_spec (c : value) (n v : string) :
  cookie_of c = Some (n, v) -> cookie_pair c = Ok (n +:+ "=" +:+ v).
Proof.
  destruct c as [| | | | | |ps]; try done. unfold cookie_of, cookie_pair.
  cbn [get_prop mbind result_bind].
  destruct (lookup_prop "name" ps); try done.
  destruct (lookup_prop "value" ps); try done.
  by intros [= -> ->].
Qed.

Lemma cookie_header_spec (cookies : value) (cs : list (string * string)) :
  cookies_of cookies = Some cs ->
  cookie_header cookies = Ok (spec_cookie_header cs).
Proof.
  destruct cookies as [| | | | |l|]; try done. unfold cookies_of, cookie_header.
  intros Hl. unfold spec_cookie_header. rewrite concat_js_join.
  assert (Hmap : map_result cookie_pair l
                 = Ok (map (fun c => fst c +:+ "=" +:+ snd c) cs)).
  { revert cs Hl. induction l as [|c l IH]; intros cs Hl.
    - by injection Hl as <-.
    - cbn [mapM] in Hl. destruct (cookie_of c) as [[n v]|] eqn:Hc; [|done].
      cbn [mbind option_bind] in Hl.
      destruct (mapM cookie_of l) as [cs'|] eqn:Hcs; [|done].
      cbn in Hl. injection Hl as <-.
      cbn [map_result]. rewrite (cookie_pair_spec _ _ _ Hc).
      cbn [mbind result_bind]. by rewrite (IH cs' eq_refl). }
  by rewrite Hmap.
Qed.

Lemma requests_app (new old : list event) :
  requests (new ++ old) = requests old ++ requests new.
Proof. unfold requests. by rewrite rev_app_distr, omap_app. Qed.

(** C7. Cookie header: for every sequence of cookies [cs], the header that
    the script builds is the [name=value] pairs joined by a semicolon and a
    space in the order of [cs]; the Subscription Resolver sends exactly one
    request and it carries this header, every request of the Usage Fetcher
    carries it; and for the cookies a=1, b=2 it is [a=1; b=2]. *)
Theorem cookie_header_serialization (h : host) (cookies sid : value)
    (cs : list (string * string)) (w : world) :
  cookies_of cookies = Some cs ->
  cookie_header cookies = Ok (spec_cookie_header cs) /\
  requests (history (snd (fetchSid h cookies w))) =
    requests (history w) ++ [get_request overview_url (spec_cookie_header cs)] /\
  (exists reqs,
     requests (history (snd (fetchData h sid cookies w))) =
       requests (history w) ++ reqs /\
     reqs <> [] /\
     Forall (fun r => r = get_request (usage_url sid) (spec_cookie_header cs)) reqs) /\
  cookie_header (VArr [VObj [("name", VStr "a"); ("value", VStr "1")];
                       VObj [("name", VStr "b"); ("value", VStr "2")]])
    = Ok "a=1; b=2".
Proof.
  intros Hcs. pose proof (cookie_header_spec _ _ Hcs) as Hhdr.
  split; [done|]. split; [|split; [|reflexivity]].
  - unfold fetchSid, mbind, M_bind, emit, lift, ask, throw, cacheDataM.
    cbn [store history global_json]. rewrite Hhdr.
    set (req := get_request _ _).
    set (hist := EvLoadJSON req :: EvCall "fetchSid" :: history w).
    assert (Hreq : requests hist = requests (history w) ++ [req]).
    { exact (requests_app [EvLoadJSON req; EvCall "fetchSid"] (history w)). }
    destruct (loadJSON h _ req) as [e|resp json]; [done|].
    destruct (get_prop json "mainSubscription") as [ms|e]; [|done].
    destruct (get_prop ms "subscriptionId") as [sid'|e]; [|done].
    cbn. by destruct (cacheData "sid.json" sid' (store w)).
  - unfold fetchData, try_catch, fetchData_try, mbind, M_bind, emit, lift, ask,
      throw, set_global_json, mret, M_ret.
    cbn [store history global_json]. rewrite Hhdr.
    set (req := get_request _ _).
    destruct (load h _ req) as [e|resp].
    + exists [req]. split; [|by repeat constructor].
      cbn. exact (requests_app [_; EvLoad req; EvCall "fetchData"] (history w)).
    + destruct (statusCode resp =? 200).
      * cbn [history]. destruct (loadJSON h _ req) as [e|resp' json];
          exists [req; req]; (split; [|by repeat constructor]); cbn.
        -- exact (requests_app [_; EvLoadJSON req; EvLoad req; EvCall "fetchData"] (history w)).
        -- exact (requests_app [EvLoadJSON req; EvLoad req; EvCall "fetchData"] (history w)).
      * exists [req]. split; [|by repeat constructor].
        cbn. exact (requests_app [_; EvLoad req; EvCall "fetchData"] (history w)).
Qed.

Lemma cookie_header_serialization_witness :
  cookie_header cookies0 = Ok "sess=abc" /\
  requests (history (snd (fetchSid host_offline cookies0 w0))) =
    requests (history w0) ++ [get_request overview_url "sess=abc"] /\
  (exists reqs,
     requests (history (snd (fetchData host_offline (VStr "SUB123") cookies0 w0))) =
       requests (history w0) ++ reqs /\
     reqs <> [] /\
     Forall (fun r => r = get_request (usage_url (VStr "SUB123")) "sess=abc") reqs) /\
  cookie_header (VArr [VObj [("name", VStr "a"); ("value", VStr "1")];
                       VObj [("name", VStr "b"); ("value", VStr "2")]])
    = Ok "a=1; b=2".
Proof.
  apply (cookie_header_serialization host_offline cookies0 (VStr "SUB123")
           [("sess", "abc")] w0). reflexivity.
Defined.

(** ** The Usage Fetcher *)

(** [fetchData] never lets a fault out. *)
Lemma fetchData_total (h : host) (sid cookies : value) (w : world) :
  exists v, fst (fetchData h sid cookies w) = Ok v.
Proof.
  unfold fetchData, try_catch, mbind, M_bind, emit.
  destruct (fetchData_try h sid cookies _) as [[v|e] w']; cbn; eauto.
Qed.

(** C5. For every subscription id, cookie sequence and response of the
    usage endpoint whose status is not 200, [fetchData] returns the value
    [{errorCode: status}] with that status. *)
Theorem fetchData_status_error (h : host) (sid cookies : value)
    (cs : list (string * string)) (w : world) (resp : response) :
  cookies_of cookies = Some cs ->
  load h (EvCall "fetchData" :: history w)
       (get_request (usage_url sid) (spec_cookie_header cs)) = LoadDone resp ->
  statusCode resp <> 200 ->
  fst (fetchData h sid cookies w) = Ok (VObj [("errorCode", VNum (statusCode resp))]).
Proof.
  intros Hcs Hload Hstatus.
  unfold fetchData, try_catch, fetchData_try, mbind, M_bind, emit, lift, ask.
  cbn [store history global_json].
  rewrite (cookie_header_spec _ _ Hcs), Hload.
  apply Z.eqb_neq in Hstatus. rewrite Hstatus. reflexivity.
Qed.

Lemma fetchData_status_error_witness :
  fst (fetchData host_refusing (VStr "SUB123") cookies0 w0)
  = Ok (VObj [("errorCode", VNum 403)]).
Proof.
  apply (fetchData_status_error host_refusing (VStr "SUB123") cookies0
           [("sess", "abc")] w0 resp403); [reflexivity | reflexivity | simpl; lia].
Defined.

(** C6. For every subscription id and cookie sequence, if the usage request
    raises a fault, or the request answers 200 and reading its JSON raises
    a fault, [fetchData] returns the value [{errorCode: -1}]. *)
Theorem fetchData_fault (h : host) (sid cookies : value)
    (cs : list (string * string)) (w : world) :
  cookies_of cookies = Some cs ->
  let req := get_request (usage_url sid) (spec_cookie_header cs) in
  let hist := EvCall "fetchData" :: history w in
  (exists e, load h hist req = LoadFault e) \/
  (exists resp e, load h hist req = LoadDone resp /\ statusCode resp = 200 /\
                  loadJSON h (EvLoad req :: hist) req = JsonFault e) ->
  fst (fetchData h sid cookies w) = Ok (VObj [("errorCode", VNum (-1))]).
Proof.
  intros Hcs req hist Hfault.
  unfold fetchData, try_catch, fetchData_try, mbind, M_bind, emit, lift, ask,
    throw.
  cbn [store history global_json].
  rewrite (cookie_header_spec _ _ Hcs). fold req hist.
  destruct Hfault as [[e ->] | (resp & e & -> & -> & Hjson)]; [reflexivity|].
  cbn [Z.eqb Pos.eqb history]. fold hist. rewrite Hjson. reflexivity.
Qed.

Lemma fetchData_fault_witness :
  fst (fetchData host_offline (VStr "SUB123") cookies0 w0)
  = Ok (VObj [("errorCode", VNum (-1))]).
Proof.
  apply (fetchData_fault host_offline (VStr "SUB123") cookies0
           [("sess", "abc")] w0); [reflexivity|].
  left. eexists. reflexivity.
Defined.

(** ** The Session Acquirer *)

(** On status 200 the cookies of the response are written under
    [cookies.json]. *)
Lemma fetchToken_success (h : host) (credentials username password : value)
    (w : world) (resp : response) (t : string) :
  let hist := EvCall "fetchToken" :: history w in
  get_prop credentials "username" = Ok username ->
  get_prop credentials "password" = Ok password ->
  load h hist (login_request
                 (login_payload username password (toISOString h hist)))
    = LoadDone resp ->
  statusCode resp = 200 ->
  JSON_stringify (cookies resp) = Some t ->
  fst (fetchToken h credentials w) = Ok tt /\
  files (store (snd (fetchToken h credentials w)))
    = <[cacheFile "cookies.json" (store w) := t]> (files (store w)).
Proof.
  intros hist Hu Hp Hload Hs Ht.
  unfold fetchToken, mbind, M_bind, emit, lift, ask, clock, throw.
  cbn [store history global_json]. fold hist. rewrite Hu, Hp, Hload, Hs.
  cbn [Z.eqb Pos.eqb negb]. rewrite cacheDataM_eq. cbn [fst snd store].
  rewrite cacheData_files, Ht. split; [|done].
  unfold cacheData, writeString. by rewrite Ht.
Qed.

(** C2. For every credentials and every response of the login endpoint,
    [fetchToken] succeeds only if the status is 200; on every other status
    it raises the error whose message carries that status, and the store,
    hence the cookies entry, is left as it was. *)
Theorem fetchToken_status (h : host) (credentials username password : value)
    (w : world) (resp : response) :
  let hist := EvCall "fetchToken" :: history w in
  get_prop credentials "username" = Ok username ->
  get_prop credentials "password" = Ok password ->
  load h hist (login_request
                 (login_payload username password (toISOString h hist)))
    = LoadDone resp ->
  (fst (fetchToken h credentials w) = Ok tt -> statusCode resp = 200) /\
  (statusCode resp <> 200 ->
   fst (fetchToken h credentials w)
     = Throw (JsError ("Failed to fetch token: " +:+ dec (statusCode resp))) /\
   store (snd (fetchToken h credentials w)) = store w).
Proof.
  intros hist Hu Hp Hload.
  unfold fetchToken, mbind, M_bind, emit, lift, ask, clock, throw.
  cbn [store history global_json]. fold hist. rewrite Hu, Hp, Hload.
  destruct (Z.eqb_spec (statusCode resp) 200) as [Hs|Hs]; cbn [negb].
  - split; [done | by intros []].
  - split; [done | by intros _].
Qed.

Lemma fetchToken_status_witness :
  (fst (fetchToken host_refusing creds w0) = Ok tt -> 403 = 200) /\
  (403 <> 200 ->
   fst (fetchToken host_refusing creds w0)
     = Throw (JsError "Failed to fetch token: 403") /\
   store (snd (fetchToken host_refusing creds w0)) = store w0).
Proof.
  apply (fetchToken_status host_refusing creds (VStr "jan") (VStr "geheim")
           w0 resp403); reflexivity.
Defined.

(** ** The Subscription Resolver *)

Lemma getCachedData_same_files (m : string) (st st' : storage) :
  documents st' = documents st -> files st' = files st ->
  (dirs st' = dirs st \/ dirs st' = {[cacheDirectory st]} ∪ dirs st) ->
  getCachedData m st' = getCachedData m st.
Proof.
  intros Hdoc Hfiles Hdirs.
  assert (Hp : cacheFile m st' = cacheFile m st).
  { unfold cacheFile, cacheDirectory. by rewrite Hdoc. }
  assert (Hex : fileExists (cacheFile m st) st' = fileExists (cacheFile m st) st).
  { apply eq_true_iff_eq. rewrite !fileExists_spec, Hfiles.
    pose proof (joinPath_ne (cacheDirectory st) m) as Hne.
    fold (cacheFile m st) in Hne.
    destruct Hdirs as [-> | ->]; [done|].
    rewrite elem_of_union, elem_of_singleton. tauto. }
  unfold getCachedData, readString. by rewrite Hp, Hex, Hfiles.
Qed.

(** Caching [undefined] is refused by the host and leaves every cached
    value as it was. *)
Lemma cacheData_undefined (n : string) (st : storage) :
  (exists msg, fst (cacheData n VUndefined st) = Throw (HostError msg)) /\
  files (snd (cacheData n VUndefined st)) = files st /\
  forall m, getCachedData m (snd (cacheData n VUndefined st)) = getCachedData m st.
Proof.
  split; [|split].
  - unfold cacheData, writeString. simpl. eauto.
  - by rewrite cacheData_files.
  - intros m. apply getCachedData_same_files.
    + apply cacheData_documents.
    + by rewrite cacheData_files.
    + apply cacheData_dirs.
Qed.

(** When the field is there, it is what gets written under [sid.json]. *)
Lemma fetchSid_success (h : host) (cookies : value)
    (cs : list (string * string)) (w : world) (resp : response)
    (json sid : value) (t : string) :
  cookies_of cookies = Some cs ->
  loadJSON h (EvCall "fetchSid" :: history w)
           (get_request overview_url (spec_cookie_header cs)) = JsonDone resp json ->
  subscription_id_field json = Some sid ->
  JSON_stringify sid = Some t ->
  fst (fetchSid h cookies w) = Ok tt /\
  files (store (snd (fetchSid h cookies w)))
    = <[cacheFile "sid.json" (store w) := t]> (files (store w)).
Proof.
  intros Hcs Hload Hfield Ht.
  unfold fetchSid, mbind, M_bind, emit, lift, ask, throw.
  cbn [store history global_json].
  rewrite (cookie_header_spec _ _ Hcs), Hload.
  destruct json as [| | | | | |ps]; try done.
  cbn [subscription_id_field] in Hfield. cbn [get_prop].
  destruct (lookup_prop "mainSubscription" ps) as [| | | | | |qs]; try done.
  cbn [get_prop].
  assert (lookup_prop "subscriptionId" qs = sid) as ->.
  { destruct (lookup_prop "subscriptionId" qs); by simplify_eq. }
  rewrite cacheDataM_eq. cbn [fst snd store]. rewrite cacheData_files, Ht.
  split; [|done]. unfold cacheData, writeString. by rewrite Ht.
Qed.

(** C1. For every overview response in which the subscription-id field is
    absent, [fetchSid] raises a fault (the type error of the property read,
    or the refusal of the host to write [undefined]; it has no handler, the
    fault is its result), writes no file and leaves the cached subscription
    id as it was. *)
Theorem fetchSid_field_absent (h : host) (cookies : value)
    (cs : list (string * string)) (w : world) (resp : response) (json : value) :
  cookies_of cookies = Some cs ->
  loadJSON h (EvCall "fetchSid" :: history w)
           (get_request overview_url (spec_cookie_header cs)) = JsonDone resp json ->
  subscription_id_field json = None ->
  (exists msg, fst (fetchSid h cookies w) = Throw (TypeError msg) \/
               fst (fetchSid h cookies w) = Throw (HostError msg)) /\
  files (store (snd (fetchSid h cookies w))) = files (store w) /\
  getCachedData "sid.json" (store (snd (fetchSid h cookies w)))
    = getCachedData "sid.json" (store w).
Proof.
  intros Hcs Hload Habsent.
  unfold fetchSid, mbind, M_bind, emit, lift, ask, throw.
  cbn [store history global_json].
  rewrite (cookie_header_spec _ _ Hcs), Hload.
  destruct (cacheData_undefined "sid.json" (store w)) as ([e He] & Hfiles & Hget).
  assert (Hundef : forall w', store w' = store w ->
    (exists msg, fst (cacheDataM "sid.json" VUndefined w') = Throw (TypeError msg) \/
                 fst (cacheDataM "sid.json" VUndefined w') = Throw (HostError msg)) /\
    files (store (snd (cacheDataM "sid.json" VUndefined w'))) = files (store w) /\
    getCachedData "sid.json" (store (snd (cacheDataM "sid.json" VUndefined w')))
      = getCachedData "sid.json" (store w)).
  { intros w' Hw'. rewrite cacheDataM_eq, Hw'. cbn [fst snd store]. eauto. }
  destruct json as [| | | | | |ps]; cbn [get_prop fst snd store];
    try (by apply Hundef); try (by eauto).
  cbn [subscription_id_field] in Habsent.
  destruct (lookup_prop "mainSubscription" ps) as [| | | | | |qs];
    cbn [get_prop fst snd store]; try (by apply Hundef); try (by eauto).
  destruct (lookup_prop "subscriptionId" qs); try done.
  by apply Hundef.
Qed.

Lemma fetchSid_field_absent_witness :
  (exists msg, fst (fetchSid host_refusing cookies0 w0) = Throw (TypeError msg) \/
               fst (fetchSid host_refusing cookies0 w0) = Throw (HostError msg)) /\
  files (store (snd (fetchSid host_refusing cookies0 w0))) = files (store w0) /\
  getCachedData "sid.json" (store (snd (fetchSid host_refusing cookies0 w0)))
    = getCachedData "sid.json" (store w0).
Proof.
  apply (fetchSid_field_absent host_refusing cookies0 [("sess", "abc")] w0
           resp200 (VObj [("mainSubscription", VObj [])])); reflexivity.
Defined.

(** ** The orchestrator *)

(** C3. Cancellation: if no credentials are cached and the operator
    cancels the alert, [run] ends with the fault of the prompt, the store is
    as it was (nothing was written under [credentials.json]) and no network
    request was issued. *)
Theorem run_cancelled (h : host) (w : world) :
  getCachedData "credentials.json" (store w) = Ok VUndefined ->
  chosen (presentAlert h (EvCall "promptForCredentials" :: EvCall "run" :: history w))
    = -1 ->
  fst (run h w) = Throw (JsError "User cancelled the login prompt.") /\
  store (snd (run h w)) = store w /\
  requests (history (snd (run h w))) = requests (history w).
Proof.
  intros Hmiss Hcancel.
  unfold run, promptForCredentials, mbind, M_bind, emit, ask, throw,
    getCachedDataM.
  cbn [store history global_json]. rewrite Hmiss.
  cbn [is_undefined store history global_json]. rewrite Hcancel.
  cbn [Z.eqb Pos.eqb Z.opp fst snd store history].
  split; [done|]. split; [done|].
  etrans; [exact (requests_app
                    [EvAlert; EvCall "promptForCredentials"; EvCall "run"]
                    (history w)) | apply app_nil_r].
Qed.

Lemma run_cancelled_witness :
  fst (run host_refusing w0) = Throw (JsError "User cancelled the login prompt.") /\
  store (snd (run host_refusing w0)) = store w0 /\
  requests (history (snd (run host_refusing w0))) = requests (history w0).
Proof. apply run_cancelled; reflexivity. Defined.

(** *** The session stage is skipped when the cookies are cached *)

Lemma parse_value_defined (f : nat) (s r : string) (v : value) :
  parse_value f s = Some (v, r) -> is_undefined v = false.
Proof.
  destruct f as [|f]; [done|]. rewrite parse_value_S.
  destruct (skip_ws s) as [|c s']; [done|].
  intros H. repeat case_match; simplify_option_eq; try done;
    repeat match goal with p : _ * _ |- _ => destruct p end; by simplify_eq.
Qed.

Lemma JSON_parse_defined (s : string) (v : value) :
  JSON_parse s = Ok v -> is_undefined v = false.
Proof.
  unfold JSON_parse.
  destruct (parse_value _ s) as [[v' r]|] eqn:Hp; [|done].
  destruct (skip_ws r); [|done]. intros [= <-].
  by eapply parse_value_defined.
Qed.

Lemma extends_refl (w : world) : extends w w.
Proof. by exists []. Qed.

Lemma extends_trans (w1 w2 w3 : world) :
  extends w1 w2 -> extends w2 w3 -> extends w1 w3.
Proof.
  intros (e1 & H1 & F1) (e2 & H2 & F2). exists (e2 ++ e1). split.
  - by rewrite H2, H1, app_assoc.
  - by apply Forall_app.
Qed.

Lemma stage_ret {A} (a : A) (Q : A -> Prop) : Q a -> stage (mret a) Q.
Proof. intros HQ w Hw. cbn. auto using extends_refl. Qed.

Lemma stage_bind {A B} (m : M A) (f : A -> M B) (Q : A -> Prop) (R : B -> Prop) :
  stage m Q -> (forall a, Q a -> stage (f a) R) -> stage (m ≫= f) R.
Proof.
  intros Hm Hf w Hw. destruct (Hm w Hw) as (Hc & He & HQ).
  unfold mbind, M_bind. destruct (m w) as [[a|e] w']; cbn in *; [|done].
  destruct (Hf a HQ w' Hc) as (Hc' & He' & HR).
  eauto using extends_trans.
Qed.

Lemma stage_throw {A} (e : exn) (Q : A -> Prop) : stage (throw e) Q.
Proof. intros w Hw. cbn. auto using extends_refl. Qed.

Lemma stage_lift {A} (r : result A) : stage (lift r) (fun _ => True).
Proof. intros w Hw. cbn. destruct r; auto using extends_refl. Qed.

Lemma stage_clock (now : list event -> string) : stage (clock now) (fun _ => True).
Proof. intros w Hw. cbn. auto using extends_refl. Qed.

Lemma stage_set_global_json (v : value) : stage (set_global_json v) (fun _ => True).
Proof. intros w Hw. cbn. split; [done|]. split; [|done]. by exists []. Qed.

Lemma stage_emit (ev : event) :
  is_login ev = false -> stage (emit ev) (fun _ => True).
Proof.
  intros Hev w Hw. cbn. split; [done|]. split; [|done].
  exists [ev]. split; [done|]. by constructor.
Qed.

Lemma stage_ask {A} (answer : list event -> A) (ev : event) :
  is_login ev = false -> stage (ask answer ev) (fun _ => True).
Proof.
  intros Hev w Hw. cbn. split; [done|]. split; [|done].
  exists [ev]. split; [done|]. by constructor.
Qed.

Lemma stage_try_catch {A} (m : M A) (handler : exn -> M A) (Q : A -> Prop) :
  stage m Q -> (forall e, stage (handler e) Q) -> stage (try_catch m handler) Q.
Proof.
  intros Hm Hh w Hw. destruct (Hm w Hw) as (Hc & He & HQ).
  unfold try_catch. destruct (m w) as [[a|e] w']; cbn in *; [done|].
  destruct (Hh e w' Hc) as (Hc' & He' & HR).
  eauto using extends_trans.
Qed.

Lemma stage_getCachedDataM (n : string) : stage (getCachedDataM n) (fun _ => True).
Proof.
  intros w Hw. cbn. split; [done|]. split; [apply extends_refl|].
  by destruct (getCachedData n (store w)).
Qed.

(** With the cookies in the cache, reading them does not yield
    [undefined]. *)
Lemma stage_cookies :
  stage (getCachedDataM "cookies.json") (fun v => is_undefined v = false).
Proof.
  intros w Hw. cbn. split; [done|]. split; [apply extends_refl|].
  unfold getCachedData. red in Hw. rewrite Hw. cbn [negb].
  destruct (readString _ (store w)) as [s|e]; [|done]. cbn.
  destruct (JSON_parse s) eqn:Hp; [|done]. by eapply JSON_parse_defined.
Qed.

Lemma fileExists_cacheData_mono (p n : string) (v : value) (st : storage) :
  fileExists p st = true -> fileExists p (snd (cacheData n v st)) = true.
Proof.
  rewrite !fileExists_spec, cacheData_files. intros [Hf | Hd].
  - left. destruct (JSON_stringify v); [|done].
    destruct (decide (cacheFile n st = p)) as [->|].
    + rewrite lookup_insert_eq. eauto.
    + by rewrite lookup_insert_ne.
  - right. destruct (cacheData_dirs n v st) as [-> | ->]; [done|].
    apply elem_of_union. by right.
Qed.

Lemma stage_cacheDataM (n : string) (v : value) :
  stage (cacheDataM n v) (fun _ => True).
Proof.
  intros w Hw. rewrite cacheDataM_eq. cbn [fst snd]. split; [|split].
  - red. cbn [store]. rewrite cacheFile_cacheData.
    by apply fileExists_cacheData_mono.
  - by exists [].
  - by destruct (fst _).
Qed.

Local Ltac stage_go :=
  repeat lazymatch goal with
  | |- stage (mret _) _ => refine (stage_ret _ (fun _ => True) I)
  | |- stage (throw _) _ => apply stage_throw
  | |- stage (emit _) _ => apply stage_emit; reflexivity
  | |- stage (ask _ _) _ => apply stage_ask; reflexivity
  | |- stage (lift _) _ => apply stage_lift
  | |- stage (clock _) _ => apply stage_clock
  | |- stage (set_global_json _) _ => apply stage_set_global_json
  | |- stage (getCachedDataM _) _ => apply stage_getCachedDataM
  | |- stage (cacheDataM _ _) _ => apply stage_cacheDataM
  | |- stage (try_catch _ _) _ => apply stage_try_catch; [ | intros ? ]
  | |- stage (_ ≫= _) _ => eapply stage_bind; [ | intros ? _ ]
  | |- stage (match ?x with _ => _ end) _ => destruct x
  end.

Lemma stage_promptForCredentials (h : host) :
  stage (promptForCredentials h) (fun _ => True).
Proof. unfold promptForCredentials. stage_go. Qed.

Lemma usage_url_not_login (sid : value) :
  String.eqb (usage_url sid) login_url = false.
Proof. reflexivity. Qed.

Lemma stage_fetchSid (h : host) (cookies : value) :
  stage (fetchSid h cookies) (fun _ => True).
Proof. unfold fetchSid. stage_go. Qed.

Lemma stage_fetchData (h : host) (sid cookies : value) :
  stage (fetchData h sid cookies) (fun _ => True).
Proof.
  unfold fetchData, fetchData_try. stage_go.
Qed.

Lemma stage_present (h : host) (json : value) :
  stage (present h json) (fun _ => True).
Proof. unfold present. stage_go. Qed.

Lemma stage_run (h : host) : stage (run h) (fun _ => True).
Proof.
  unfold run.
  eapply stage_bind; [apply stage_emit; reflexivity | intros _ _].
  eapply stage_bind; [apply stage_getCachedDataM | intros credentials _].
  eapply stage_bind.
  { instantiate (1 := fun _ => True).
    destruct (is_undefined credentials); [|by apply stage_ret].
    eapply stage_bind; [apply stage_promptForCredentials | intros c _].
    stage_go. }
  intros credentials' _.
  eapply stage_bind; [apply stage_cookies | intros cookies Hdef].
  cbn beta in Hdef. rewrite Hdef.
  eapply stage_bind; [by apply (stage_ret _ (fun _ => True)) | intros cookies' _].
  eapply stage_bind; [apply stage_getCachedDataM | intros sid _].
  eapply stage_bind.
  { instantiate (1 := fun _ => True).
    destruct (is_undefined sid); [|by apply stage_ret].
    eapply stage_bind; [apply stage_fetchSid | intros _ _].
    apply stage_getCachedDataM. }
  intros sid' _.
  eapply stage_bind; [apply stage_fetchData | intros json _].
  apply stage_present.
Qed.

(** C4. Stage short-circuit: if [cookies.json] exists in the cache, then
    whatever the host answers and whether the credentials are cached or
    asked for, a run never enters [fetchToken] and sends no request to the
    login endpoint. *)
Theorem run_skips_fetchToken (h : host) (w : world) :
  fileExists (cacheFile "cookies.json" (store w)) (store w) = true ->
  exists evs,
    history (snd (run h w)) = evs ++ history w /\
    (EvCall "fetchToken" ∉ evs) /\
    (forall req, url req = login_url -> EvLoad req ∉ evs).
Proof.
  intros Hw. destruct (stage_run h w Hw) as (_ & (evs & Hevs & Hall) & _).
  exists evs. split; [done|]. rewrite Forall_forall in Hall. split.
  - intros Hin. by specialize (Hall _ Hin).
  - intros req Hurl Hin. specialize (Hall _ Hin). cbn in Hall.
    rewrite Hurl in Hall. done.
Qed.

Lemma run_skips_fetchToken_witness :
  fst (run host_ok w_cookies) = Ok tt /\
  map url (requests (history (snd (run host_ok w_cookies))))
    = [overview_url; usage_url (VStr "SUB123"); usage_url (VStr "SUB123")] /\
  exists evs,
    history (snd (run host_ok w_cookies)) = evs ++ history w_cookies /\
    (EvCall "fetchToken" ∉ evs) /\
    (forall req, url req = login_url -> EvLoad req ∉ evs).
Proof.
  split; [vm_compute; reflexivity|]. split; [vm_compute; reflexivity|].
  apply run_skips_fetchToken. vm_compute. reflexivity.
Defined.

(** * Further properties of the script

    ** The cache store *)

(** X1. [getCachedData] returns the absent marker exactly when nothing
    exists under the name: a file that is there never reads as
    [undefined]. *)
Theorem getCachedData_undefined_iff (n : string) (st : storage) :
  getCachedData n st = Ok VUndefined <->
  fileExists (cacheFile n st) st = false.
Proof.
  unfold getCachedData. destruct (fileExists (cacheFile n st) st); cbn [negb].
  - split; [|done]. intros H.
    destruct (readString (cacheFile n st) st) as [s|e]; [|done].
    cbn in H. by apply JSON_parse_defined in H.
  - done.
Qed.

(** Whatever is written, the cache directory exists afterwards. *)
Lemma cacheData_directory (n : string) (v : value) (st : storage) :
  fileExists (cacheDirectory st) (snd (cacheData n v st)) = true.
Proof.
  rewrite fileExists_spec, cacheData_files.
  unfold cacheData, writeString.
  destruct (fileExists (cacheDirectory st) st) eqn:Hex; cbn [negb].
  - apply fileExists_spec in Hex as [Hf | Hd].
    + left. destruct (JSON_stringify v); [|done].
      rewrite lookup_insert_ne; [done|]. apply joinPath_ne.
    + right. by destruct (JSON_stringify v).
  - right. destruct (JSON_stringify v); cbn; apply elem_of_union; left;
      by apply elem_of_singleton.
Qed.

(** X2. [cacheData] succeeds for every value but [undefined]; whatever
    the value, the cache directory exists afterwards; and a refused write
    leaves every cached value as it was. *)
Theorem cacheData_succeeds_iff (n : string) (v : value) (st : storage) :
  (fst (cacheData n v st) = Ok tt <-> v <> VUndefined) /\
  fileExists (cacheDirectory st) (snd (cacheData n v st)) = true /\
  (forall m, fst (cacheData n v st) <> Ok tt ->
             getCachedData m (snd (cacheData n v st)) = getCachedData m st).
Proof.
  assert (Hs : JSON_stringify v = None <-> v = VUndefined).
  { destruct v as [| |[]| | | |]; split; done. }
  split; [|split].
  - unfold cacheData, writeString. destruct (JSON_stringify v) eqn:Ht.
    + split; [|done]. intros _ ->. done.
    + split; [done|]. intros Hv. by destruct Hv, (proj1 Hs).
  - apply cacheData_directory.
  - intros m Hfail.
    assert (Hv : JSON_stringify v = None).
    { unfold cacheData, writeString in Hfail.
      by destruct (JSON_stringify v). }
    apply getCachedData_same_files.
    + apply cacheData_documents.
    + by rewrite cacheData_files, Hv.
    + apply cacheData_dirs.
Qed.

Lemma storage_eq (a b : storage) :
  documents a = documents b -> files a = files b -> dirs a = dirs b -> a = b.
Proof. destruct a, b. cbn. by intros -> -> ->. Qed.

Lemma cacheData_dirs_eq (n : string) (v : value) (st : storage) :
  dirs (snd (cacheData n v st)) =
  if fileExists (cacheDirectory st) st then dirs st
  else {[cacheDirectory st]} ∪ dirs st.
Proof.
  unfold cacheData, writeString.
  by destruct (JSON_stringify v), (fileExists (cacheDirectory st) st).
Qed.

Lemma cacheDirectory_cacheData (n : string) (v : value) (st : storage) :
  cacheDirectory (snd (cacheData n v st)) = cacheDirectory st.
Proof. unfold cacheDirectory. by rewrite cacheData_documents. Qed.

(** X3. Writes under distinct names commute: the two orders leave the same
    storage. *)
Theorem cacheData_commute (n m : string) (v u : value) (st : storage) :
  n <> m ->
  snd (cacheData m u (snd (cacheData n v st)))
  = snd (cacheData n v (snd (cacheData m u st))).
Proof.
  intros Hne.
  assert (Hp : cacheFile n st <> cacheFile m st).
  { intros H. by apply joinPath_inj in H. }
  assert (Hdir : forall k x, fileExists (cacheDirectory st) (snd (cacheData k x st))
                             = true).
  { intros k x. apply cacheData_directory. }
  apply storage_eq.
  - by rewrite !cacheData_documents.
  - rewrite !cacheData_files, !cacheFile_cacheData.
    destruct (JSON_stringify u), (JSON_stringify v); try done.
    by apply insert_insert_ne.
  - rewrite !cacheData_dirs_eq, !cacheDirectory_cacheData, !Hdir.
    by destruct (fileExists (cacheDirectory st) st).
Qed.

Lemma cacheData_commute_witness :
  snd (cacheData "sid.json" (VStr "SUB123")
         (snd (cacheData "cookies.json" cookies0 st0)))
  = snd (cacheData "cookies.json" cookies0
           (snd (cacheData "sid.json" (VStr "SUB123") st0))).
Proof. apply cacheData_commute. vm_compute. discriminate. Defined.

(** ** Relations kept by the computations of the script *)

Section Keeps.
Variable R : world -> world -> Prop.
Hypothesis R_refl : forall w, R w w.
Hypothesis R_trans : forall w1 w2 w3, R w1 w2 -> R w2 w3 -> R w1 w3.

Lemma keeps_ret {A} (a : A) : keeps R (mret a).
Proof. intros w. apply R_refl. Qed.

Lemma keeps_throw {A} (e : exn) : keeps R (@throw A e).
Proof. intros w. apply R_refl. Qed.

Lemma keeps_lift {A} (r : result A) : keeps R (lift r).
Proof. intros w. apply R_refl. Qed.

Lemma keeps_clock (now : list event -> string) : keeps R (clock now).
Proof. intros w. apply R_refl. Qed.

Lemma keeps_getCachedDataM (n : string) : keeps R (getCachedDataM n).
Proof. intros w. apply R_refl. Qed.

Lemma keeps_bind {A B} (m : M A) (f : A -> M B) :
  keeps R m -> (forall a, keeps R (f a)) -> keeps R (m ≫= f).
Proof.
  intros Hm Hf w. specialize (Hm w). unfold mbind, M_bind.
  destruct (m w) as [[a|e] w1]; cbn in *; [|done].
  eapply R_trans; [exact Hm | apply Hf].
Qed.

Lemma keeps_try_catch {A} (m : M A) (handler : exn -> M A) :
  keeps R m -> (forall e, keeps R (handler e)) -> keeps R (try_catch m handler).
Proof.
  intros Hm Hh w. specialize (Hm w). unfold try_catch.
  destruct (m w) as [[a|e] w1]; cbn in *; [done|].
  eapply R_trans; [exact Hm | apply Hh].
Qed.
End Keeps.

Lemma keeps_outcome {A} (R : world -> world -> Prop) (m : M A) (w w' : world)
    (r : result A) :
  keeps R m -> m w = (r, w') -> R w w'.
Proof. intros Hm Hw. specialize (Hm w). by rewrite Hw in Hm. Qed.

(** The structural part of a proof that [m] keeps [R]; [prim] deals with
    the events and the writes. *)
Local Ltac keeps_go rfl trs prim :=
  repeat lazymatch goal with
  | |- keeps _ (mret _) => apply (keeps_ret _ rfl)
  | |- keeps _ (throw _) => apply (keeps_throw _ rfl)
  | |- keeps _ (lift _) => apply (keeps_lift _ rfl)
  | |- keeps _ (clock _) => apply (keeps_clock _ rfl)
  | |- keeps _ (getCachedDataM _) => apply (keeps_getCachedDataM _ rfl)
  | |- keeps _ (try_catch _ _) => apply (keeps_try_catch _ trs); [ | intros ? ]
  | |- keeps _ (_ ≫= _) => apply (keeps_bind _ trs); [ | intros ? ]
  | |- keeps _ (match ?x with _ => _ end) => destruct x
  | |- keeps _ _ => prim
  end.

(** *** The same store, and only some events *)

Lemma only_events_refl (ok : event -> bool) (w : world) : only_events ok w w.
Proof. split; [done|]. by exists []. Qed.

Lemma only_events_trans (ok : event -> bool) (w1 w2 w3 : world) :
  only_events ok w1 w2 -> only_events ok w2 w3 -> only_events ok w1 w3.
Proof.
  intros [S1 (e1 & H1 & F1)] [S2 (e2 & H2 & F2)]. split; [congruence|].
  exists (e2 ++ e1). split.
  - by rewrite H2, H1, app_assoc.
  - by rewrite forallb_app, F1, F2.
Qed.

Lemma only_events_emit (ok : event -> bool) (ev : event) :
  ok ev = true -> keeps (only_events ok) (emit ev).
Proof.
  intros Hev w. split; [done|]. exists [ev]. cbn. by rewrite Hev.
Qed.

Lemma only_events_ask {A} (ok : event -> bool) (answer : list event -> A)
    (ev : event) :
  ok ev = true -> keeps (only_events ok) (ask answer ev).
Proof.
  intros Hev w. split; [done|]. exists [ev]. cbn. by rewrite Hev.
Qed.

Lemma only_events_set_global_json (ok : event -> bool) (v : value) :
  keeps (only_events ok) (set_global_json v).
Proof. intros w. split; [done|]. by exists []. Qed.

Local Ltac events_prim :=
  first
    [ apply only_events_set_global_json
    | apply only_events_emit; first [reflexivity | apply String.eqb_refl]
    | apply only_events_ask; first [reflexivity | apply String.eqb_refl] ].

Local Ltac events_go ok :=
  keeps_go (only_events_refl ok) (only_events_trans ok) events_prim.

Lemma fetchData_only_events (h : host) (sid cookies : value) :
  keeps (only_events (is_usage sid)) (fetchData h sid cookies).
Proof. unfold fetchData, fetchData_try. events_go (is_usage sid). Qed.

Lemma present_only_events (h : host) (json : value) :
  keeps (only_events is_silent) (present h json).
Proof. unfold present. events_go is_silent. Qed.

Lemma promptForCredentials_only_events (h : host) :
  keeps (only_events is_local) (promptForCredentials h).
Proof. unfold promptForCredentials. events_go is_local. Qed.

(** ** The Usage Fetcher, on every input *)

(** X4. Whatever the host answers and whatever [sid] and [cookies] are,
    [fetchData] returns a value (no fault leaves its [try] block), leaves
    the store as it was, shows no alert and sends requests to the usage
    endpoint of [sid] only. *)
Theorem fetchData_contained (h : host) (sid cookies : value) (w : world) :
  (exists v, fst (fetchData h sid cookies w) = Ok v) /\
  only_events (is_usage sid) w (snd (fetchData h sid cookies w)).
Proof.
  split; [apply fetchData_total | apply fetchData_only_events].
Qed.

(** X5. On status 200 the usage is fetched a second time by [loadJSON]: the
    value returned is the JSON of that second answer, whatever the first
    response was beyond its status, and it is also left in the global
    [json]. *)
Theorem fetchData_second_request (h : host) (sid cookies : value)
    (cs : list (string * string)) (w : world) (resp resp' : response)
    (json : value) :
  cookies_of cookies = Some cs ->
  let req := get_request (usage_url sid) (spec_cookie_header cs) in
  let hist := EvCall "fetchData" :: history w in
  load h hist req = LoadDone resp ->
  statusCode resp = 200 ->
  loadJSON h (EvLoad req :: hist) req = JsonDone resp' json ->
  fst (fetchData h sid cookies w) = Ok json /\
  global_json (snd (fetchData h sid cookies w)) = json /\
  requests (history (snd (fetchData h sid cookies w)))
    = requests (history w) ++ [req; req].
Proof.
  intros Hcs req hist Hload Hs Hjson.
  unfold fetchData, try_catch, fetchData_try, mbind, M_bind, emit, lift, ask,
    throw, set_global_json, mret, M_ret.
  cbn [store history global_json].
  rewrite (cookie_header_spec _ _ Hcs). fold req hist. rewrite Hload, Hs.
  cbn [Z.eqb Pos.eqb history]. fold hist. rewrite Hjson.
  cbn [fst snd global_json history]. split; [done|]. split; [done|].
  exact (requests_app [EvLoadJSON req; EvLoad req; EvCall "fetchData"]
           (history w)).
Qed.

Lemma fetchData_second_request_witness :
  fst (fetchData host_ok (VStr "SUB123") cookies0 w0) = Ok usage_summary /\
  global_json (snd (fetchData host_ok (VStr "SUB123") cookies0 w0))
    = usage_summary /\
  requests (history (snd (fetchData host_ok (VStr "SUB123") cookies0 w0)))
    = requests (history w0)
      ++ [get_request (usage_url (VStr "SUB123")) "sess=abc";
          get_request (usage_url (VStr "SUB123")) "sess=abc"].
Proof.
  apply (fetchData_second_request host_ok (VStr "SUB123") cookies0
           [("sess", "abc")] w0 resp200 resp200 usage_summary); reflexivity.
Defined.

(** X6. Cookies that are not an array (a cached [null], an object, a
    string) make [fetchData] return [{errorCode: -1}] without any request
    being sent. *)
Theorem fetchData_cookies_not_array (h : host) (sid cookies : value) (w : world) :
  is_array cookies = false ->
  fst (fetchData h sid cookies w) = Ok (VObj [("errorCode", VNum (-1))]) /\
  requests (history (snd (fetchData h sid cookies w))) = requests (history w).
Proof.
  intros Harr.
  unfold fetchData, try_catch, fetchData_try, mbind, M_bind, emit, lift.
  cbn [store history global_json].
  destruct cookies; try done; cbn; (split; [done|]);
    (etrans; [exact (requests_app [_; EvCall "fetchData"] (history w))
             | apply app_nil_r]).
Qed.

Lemma fetchData_cookies_not_array_witness :
  fst (fetchData host_ok (VStr "SUB123") VNull w0)
    = Ok (VObj [("errorCode", VNum (-1))]) /\
  requests (history (snd (fetchData host_ok (VStr "SUB123") VNull w0)))
    = requests (history w0).
Proof. apply fetchData_cookies_not_array. reflexivity. Defined.

(** ** The Credential Prompt *)

Lemma cacheData_read (n : string) (v : value) (st : storage) :
  serializable v = true ->
  getCachedData n (snd (cacheData n v st)) = Ok v.
Proof.
  intros Hser. destruct (parse_stringify v Hser) as (t & Ht & Hparse).
  unfold getCachedData, readString, fileExists.
  rewrite cacheFile_cacheData, cacheData_files, Ht, lookup_insert_eq.
  rewrite bool_decide_eq_true_2 by eauto. exact Hparse.
Qed.

(** X7. When the prompt is confirmed (any answer but -1), the credentials
    are the two text fields as strings; the prompt touches neither the
    store nor the network; and these credentials survive the cache: written
    under [credentials.json] they read back as they were. *)
Theorem promptForCredentials_confirmed (h : host) (w : world) (c : value) :
  fst (promptForCredentials h w) = Ok c ->
  (let answer := presentAlert h (EvCall "promptForCredentials" :: history w) in
   chosen answer <> -1 /\
   c = VObj [("username", VStr (textFieldValue answer 0));
             ("password", VStr (textFieldValue answer 1))]) /\
  only_events is_local w (snd (promptForCredentials h w)) /\
  forall st, getCachedData "credentials.json"
               (snd (cacheData "credentials.json" c st)) = Ok c.
Proof.
  intros Hc.
  split; [|split; [apply promptForCredentials_only_events|]].
  - revert Hc.
    unfold promptForCredentials, mbind, M_bind, emit, ask, throw.
    cbn [store history global_json].
    destruct (Z.eqb_spec (chosen (presentAlert h
               (EvCall "promptForCredentials" :: history w))) (-1)); [done|].
    cbn. by intros [= <-].
  - intros st. apply cacheData_read. revert Hc.
    unfold promptForCredentials, mbind, M_bind, emit, ask, throw.
    cbn [store history global_json].
    destruct (chosen _ =? -1); [done|]. cbn. by intros [= <-].
Qed.

Lemma promptForCredentials_confirmed_witness :
  (let answer := presentAlert host_ok (EvCall "promptForCredentials" :: history w0) in
   chosen answer <> -1 /\
   creds = VObj [("username", VStr (textFieldValue answer 0));
                 ("password", VStr (textFieldValue answer 1))]) /\
  only_events is_local w0 (snd (promptForCredentials host_ok w0)) /\
  forall st, getCachedData "credentials.json"
               (snd (cacheData "credentials.json" creds st)) = Ok creds.
Proof. apply (promptForCredentials_confirmed host_ok w0 creds). reflexivity. Defined.

(** ** What the script writes *)

Lemma writes_only_refl (names : list string) (w : world) : writes_only names w w.
Proof. repeat split; auto. Qed.

Lemma writes_only_trans (names : list string) (w1 w2 w3 : world) :
  writes_only names w1 w2 -> writes_only names w2 w3 -> writes_only names w1 w3.
Proof.
  intros (D1 & R1 & S1 & F1) (D2 & R2 & S2 & F2).
  assert (Hdir : cacheDirectory (store w2) = cacheDirectory (store w1)).
  { unfold cacheDirectory. by rewrite D1. }
  assert (Hfile : forall n, cacheFile n (store w2) = cacheFile n (store w1)).
  { intros n. unfold cacheFile. by rewrite Hdir. }
  split; [congruence|]. split; [|split].
  - rewrite Hdir in R2.
    destruct R1 as [E1|E1], R2 as [E2|E2]; rewrite E2, ?E1; auto.
    right. by rewrite (assoc_L (∪)), (idemp_L (∪)).
  - auto.
  - intros p Hp. rewrite F2, F1; [done | done |].
    intros n Hn. rewrite Hfile. by apply Hp.
Qed.

Lemma writes_only_mono (names names' : list string) (w w' : world) :
  names ⊆ names' -> writes_only names w w' -> writes_only names' w w'.
Proof.
  intros Hsub (D & R & S & F). split; [done|]. split; [done|]. split; [done|].
  intros p Hp. apply F. intros n Hn. apply Hp. by apply Hsub.
Qed.

Lemma writes_only_same_store (names : list string) (w w' : world) :
  store w' = store w -> writes_only names w w'.
Proof. intros E. unfold writes_only. rewrite E. repeat split; auto. Qed.

Lemma writes_only_cacheDataM (names : list string) (n : string) (v : value) :
  n ∈ names -> keeps (writes_only names) (cacheDataM n v).
Proof.
  intros Hn w. rewrite cacheDataM_eq. cbn [snd]. unfold writes_only.
  cbn [store]. split; [apply cacheData_documents|].
  split; [apply cacheData_dirs|]. rewrite cacheData_files. split.
  - intros p Hp. destruct (JSON_stringify v); [|done].
    destruct (decide (cacheFile n (store w) = p)) as [->|Hne].
    + rewrite lookup_insert_eq. eauto.
    + by rewrite lookup_insert_ne.
  - intros p Hp. destruct (JSON_stringify v); [|done].
    rewrite lookup_insert_ne; [done|]. intros <-. by apply (Hp n).
Qed.

(** The reads of the other names are as before. *)
Lemma writes_only_read (names : list string) (w w' : world) (m : string) :
  writes_only names w w' -> m ∉ names ->
  getCachedData m (store w') = getCachedData m (store w).
Proof.
  intros (D & R & S & F) Hm.
  assert (Hfile : files (store w') !! cacheFile m (store w)
                  = files (store w) !! cacheFile m (store w)).
  { apply F. intros n Hn Heq. apply joinPath_inj in Heq. by subst. }
  assert (Hp : cacheFile m (store w') = cacheFile m (store w)).
  { unfold cacheFile, cacheDirectory. by rewrite D. }
  assert (Hex : fileExists (cacheFile m (store w)) (store w')
                = fileExists (cacheFile m (store w)) (store w)).
  { apply eq_true_iff_eq. rewrite !fileExists_spec, Hfile.
    pose proof (joinPath_ne (cacheDirectory (store w)) m) as Hne.
    fold (cacheFile m (store w)) in Hne.
    destruct R as [-> | ->]; [done|].
    rewrite elem_of_union, elem_of_singleton. tauto. }
  unfold getCachedData, readString. by rewrite Hp, Hex, Hfile.
Qed.

(** Nothing that exists disappears. *)
Lemma writes_only_exists (names : list string) (w w' : world) (p : string) :
  writes_only names w w' ->
  fileExists p (store w) = true -> fileExists p (store w') = true.
Proof.
  intros (D & R & S & F). rewrite !fileExists_spec. intros [Hf|Hd]; [by auto|].
  right. destruct R as [-> | ->]; [done|]. apply elem_of_union. by right.
Qed.

Local Ltac writes_prim :=
  first
    [ apply writes_only_cacheDataM; solve [repeat constructor]
    | intros ?; by apply writes_only_same_store ].

Local Ltac writes_go names :=
  keeps_go (writes_only_refl names) (writes_only_trans names) writes_prim.

Lemma fetchToken_writes_only (h : host) (credentials : value) :
  keeps (writes_only ["cookies.json"]) (fetchToken h credentials).
Proof. unfold fetchToken. writes_go ["cookies.json"]. Qed.

Lemma fetchSid_writes_only (h : host) (cookies : value) :
  keeps (writes_only ["sid.json"]) (fetchSid h cookies).
Proof. unfold fetchSid. writes_go ["sid.json"]. Qed.

Lemma only_events_writes_only (ok : event -> bool) (names : list string)
    {A} (m : M A) :
  keeps (only_events ok) m -> keeps (writes_only names) m.
Proof. intros Hm w. apply writes_only_same_store, Hm. Qed.

Lemma cacheDataM_outcome (n : string) (v : value) (w : world) :
  match fst (cacheDataM n v w) with
  | Ok _ =>
      is_Some (files (store (snd (cacheDataM n v w))) !! cacheFile n (store w))
  | Throw _ => files (store (snd (cacheDataM n v w))) = files (store w)
  end.
Proof.
  rewrite cacheDataM_eq. cbn [fst snd store]. rewrite cacheData_files.
  unfold cacheData, writeString. destruct (JSON_stringify v); cbn [fst].
  - rewrite lookup_insert_eq. eauto.
  - done.
Qed.

(** ** The Session Acquirer, on every input *)

Lemma fetchToken_outcome (h : host) (credentials : value) (w : world) :
  match fst (fetchToken h credentials w) with
  | Ok _ =>
      is_Some (files (store (snd (fetchToken h credentials w)))
                 !! cacheFile "cookies.json" (store w))
  | Throw _ => files (store (snd (fetchToken h credentials w))) = files (store w)
  end.
Proof.
  unfold fetchToken, mbind, M_bind, emit, lift, ask, clock, throw.
  cbn [store history global_json].
  destruct (get_prop credentials "username") as [username|e]; [|done].
  destruct (get_prop credentials "password") as [password|e]; [|done].
  destruct (load h _ _) as [e|resp]; [done|].
  destruct (negb (statusCode resp =? 200)); [done|].
  match goal with
  | |- context [cacheDataM _ _ ?w1] => exact (cacheDataM_outcome _ _ w1)
  end.
Qed.

(** X8. Whatever the credentials and the host's answer, [fetchToken] writes
    under [cookies.json] at most; when it ends in a fault no file has
    changed, and when it succeeds the cookies file exists. *)
Theorem fetchToken_storage (h : host) (credentials : value) (w : world) :
  writes_only ["cookies.json"] w (snd (fetchToken h credentials w)) /\
  match fst (fetchToken h credentials w) with
  | Ok _ =>
      is_Some (files (store (snd (fetchToken h credentials w)))
                 !! cacheFile "cookies.json" (store w))
  | Throw _ => files (store (snd (fetchToken h credentials w))) = files (store w)
  end.
Proof.
  split.
  - apply fetchToken_writes_only.
  - apply fetchToken_outcome.
Qed.

Lemma login_payload_serializable (username password : value) (datetime : string) :
  serializable username = true -> serializable password = true ->
  serializable (login_payload username password datetime) = true.
Proof.
  intros Hu Hp. unfold login_payload. cbn [serializable forallb map fst snd].
  rewrite Hu, Hp. reflexivity.
Qed.

(** X9. For credentials with serializable [username] and [password] (the
    prompt gives strings), [fetchToken] sends exactly one request: a POST
    to the login endpoint with the JSON content type, whose body parses
    back to the payload [{username, password, remember: true, datetime}]. *)
Theorem fetchToken_request (h : host) (credentials username password : value)
    (w : world) :
  get_prop credentials "username" = Ok username ->
  get_prop credentials "password" = Ok password ->
  serializable username = true -> serializable password = true ->
  exists text,
    requests (history (snd (fetchToken h credentials w)))
      = requests (history w)
        ++ [{| url := login_url; method := "POST";
               headers := [("Content-Type", "application/json")];
               body := Some text |}] /\
    JSON_parse text
      = Ok (VObj [("username", username); ("password", password);
                  ("remember", VBool true);
                  ("datetime",
                   VStr (toISOString h (EvCall "fetchToken" :: history w)))]).
Proof.
  intros Hu Hp Su Sp.
  set (datetime := toISOString h (EvCall "fetchToken" :: history w)).
  destruct (parse_stringify _ (login_payload_serializable _ _ datetime Su Sp))
    as (text & Htext & Hparse).
  exists text. split; [|exact Hparse].
  unfold fetchToken, mbind, M_bind, emit, lift, ask, clock, throw.
  cbn [store history global_json]. rewrite Hu, Hp. fold datetime.
  unfold login_request. rewrite Htext.
  set (req := {| url := login_url; body := Some text |}).
  assert (Hreq : requests (EvLoad req :: EvCall "fetchToken" :: history w)
                 = requests (history w) ++ [req]).
  { exact (requests_app [EvLoad req; EvCall "fetchToken"] (history w)). }
  destruct (load h _ req) as [e|resp]; [exact Hreq|].
  destruct (negb (statusCode resp =? 200)); [exact Hreq|].
  rewrite cacheDataM_eq. exact Hreq.
Qed.

Lemma fetchToken_request_witness :
  exists text,
    requests (history (snd (fetchToken host_ok creds w0)))
      = requests (history w0)
        ++ [{| url := login_url; method := "POST";
               headers := [("Content-Type", "application/json")];
               body := Some text |}] /\
    JSON_parse text
      = Ok (VObj [("username", VStr "jan"); ("password", VStr "geheim");
                  ("remember", VBool true);
                  ("datetime",
                   VStr (toISOString host_ok (EvCall "fetchToken" :: history w0)))]).
Proof.
  apply (fetchToken_request host_ok creds (VStr "jan") (VStr "geheim") w0);
    reflexivity.
Defined.

(** X10. On status 200 with serializable cookies, [fetchToken] succeeds,
    the cookies of the response read back from [cookies.json] as they
    were, and the other cached names read as before. *)
Theorem fetchToken_caches_cookies (h : host)
    (credentials username password : value) (w : world) (resp : response) :
  let hist := EvCall "fetchToken" :: history w in
  get_prop credentials "username" = Ok username ->
  get_prop credentials "password" = Ok password ->
  load h hist (login_request
                 (login_payload username password (toISOString h hist)))
    = LoadDone resp ->
  statusCode resp = 200 ->
  serializable (cookies resp) = true ->
  fst (fetchToken h credentials w) = Ok tt /\
  getCachedData "cookies.json" (store (snd (fetchToken h credentials w)))
    = Ok (cookies resp) /\
  forall m, m <> "cookies.json" ->
    getCachedData m (store (snd (fetchToken h credentials w)))
      = getCachedData m (store w).
Proof.
  intros hist Hu Hp Hload Hs Hser. split; [|split].
  - destruct (parse_stringify _ Hser) as (t & Ht & _).
    by apply (fetchToken_success h credentials username password w resp t).
  - unfold fetchToken, mbind, M_bind, emit, lift, ask, clock, throw.
    cbn [store history global_json]. fold hist. rewrite Hu, Hp, Hload, Hs.
    cbn [Z.eqb Pos.eqb negb]. rewrite cacheDataM_eq. cbn [snd store].
    by apply cacheData_read.
  - intros m Hm. apply (writes_only_read ["cookies.json"]).
    + apply fetchToken_writes_only.
    + by intros ->%list_elem_of_singleton.
Qed.

Lemma fetchToken_caches_cookies_witness :
  fst (fetchToken host_ok creds w0) = Ok tt /\
  getCachedData "cookies.json" (store (snd (fetchToken host_ok creds w0)))
    = Ok cookies0 /\
  forall m, m <> "cookies.json" ->
    getCachedData m (store (snd (fetchToken host_ok creds w0)))
      = getCachedData m (store w0).
Proof.
  apply (fetchToken_caches_cookies host_ok creds (VStr "jan") (VStr "geheim")
           w0 resp200); reflexivity.
Defined.

(** ** The Subscription Resolver, on every input *)

Lemma fetchSid_outcome (h : host) (cookies : value) (w : world) :
  match fst (fetchSid h cookies w) with
  | Ok _ =>
      is_Some (files (store (snd (fetchSid h cookies w)))
                 !! cacheFile "sid.json" (store w))
  | Throw _ => files (store (snd (fetchSid h cookies w))) = files (store w)
  end.
Proof.
  unfold fetchSid, mbind, M_bind, emit, lift, ask, throw.
  cbn [store history global_json].
  destruct (cookie_header cookies) as [cookie|e]; [|done].
  destruct (loadJSON h _ _) as [e|resp json]; [done|].
  destruct (get_prop json "mainSubscription") as [ms|e]; [|done].
  destruct (get_prop ms "subscriptionId") as [sid|e]; [|done].
  match goal with
  | |- context [cacheDataM _ _ ?w1] => exact (cacheDataM_outcome _ _ w1)
  end.
Qed.

(** X11. Whatever the cookies and the host's answer, [fetchSid] writes
    under [sid.json] at most; when it ends in a fault (transport, parse,
    missing field) no file has changed, and when it succeeds the file of
    the subscription id exists. *)
Theorem fetchSid_storage (h : host) (cookies : value) (w : world) :
  writes_only ["sid.json"] w (snd (fetchSid h cookies w)) /\
  match fst (fetchSid h cookies w) with
  | Ok _ =>
      is_Some (files (store (snd (fetchSid h cookies w)))
                 !! cacheFile "sid.json" (store w))
  | Throw _ => files (store (snd (fetchSid h cookies w))) = files (store w)
  end.
Proof.
  split.
  - apply fetchSid_writes_only.
  - apply fetchSid_outcome.
Qed.

(** X12. When the overview has the field and its value is serializable,
    [fetchSid] succeeds, the subscription id reads back from [sid.json] as
    it was, and the other cached names read as before. *)
Theorem fetchSid_caches_id (h : host) (cookies : value)
    (cs : list (string * string)) (w : world) (resp : response)
    (json sid : value) :
  cookies_of cookies = Some cs ->
  loadJSON h (EvCall "fetchSid" :: history w)
           (get_request overview_url (spec_cookie_header cs)) = JsonDone resp json ->
  subscription_id_field json = Some sid ->
  serializable sid = true ->
  fst (fetchSid h cookies w) = Ok tt /\
  getCachedData "sid.json" (store (snd (fetchSid h cookies w))) = Ok sid /\
  forall m, m <> "sid.json" ->
    getCachedData m (store (snd (fetchSid h cookies w)))
      = getCachedData m (store w).
Proof.
  intros Hcs Hload Hfield Hser.
  destruct (parse_stringify _ Hser) as (t & Ht & Hparse).
  destruct (fetchSid_success h cookies cs w resp json sid t Hcs Hload Hfield Ht)
    as [Hok Hfiles].
  pose proof (fetchSid_writes_only h cookies w) as Hw.
  split; [done|]. split.
  - destruct Hw as (D & _ & _ & _).
    unfold getCachedData, readString, fileExists.
    assert (Hp : cacheFile "sid.json" (store (snd (fetchSid h cookies w)))
                 = cacheFile "sid.json" (store w)).
    { unfold cacheFile, cacheDirectory. by rewrite D. }
    rewrite Hp, Hfiles, lookup_insert_eq.
    rewrite bool_decide_eq_true_2 by eauto. exact Hparse.
  - intros m Hm. apply (writes_only_read ["sid.json"]); [done|].
    by intros ->%list_elem_of_singleton.
Qed.

Lemma fetchSid_caches_id_witness :
  fst (fetchSid host_ok cookies0 w0) = Ok tt /\
  getCachedData "sid.json" (store (snd (fetchSid host_ok cookies0 w0)))
    = Ok (VStr "SUB123") /\
  forall m, m <> "sid.json" ->
    getCachedData m (store (snd (fetchSid host_ok cookies0 w0)))
      = getCachedData m (store w0).
Proof.
  apply (fetchSid_caches_id host_ok cookies0 [("sess", "abc")] w0 resp200
           (VObj [("mainSubscription", VObj [("subscriptionId", VStr "SUB123")])])
           (VStr "SUB123")); reflexivity.
Defined.

(** ** The widget *)

Lemma addUsage_nullish (icon : string) (data : value) :
  nullish data = true -> exists msg, addUsage icon data = Throw (TypeError msg).
Proof. destruct data; try done; intros _; cbn; eauto. Qed.

Lemma addUsage_defined (icon : string) (data : value) :
  nullish data = false -> exists t, addUsage icon data = Ok t.
Proof.
  intros Hd. unfold addUsage.
  destruct data as [| | | | | |ps]; try done; cbn [get_prop mbind result_bind];
    try (destruct (strict_eq_string _ _); eauto).
Qed.

(** X13. A usage answer without [errorCode] in which one of the sections
    [data], [sms], [voice] is missing or [null] makes the presentation end
    in a type error before anything is shown: the world is as it was, no
    widget is set. *)
Theorem present_missing_section (h : host) (ps : list (string * value))
    (w : world) :
  lookup_prop "errorCode" ps = VUndefined ->
  nullish (lookup_prop "data" ps) || nullish (lookup_prop "sms" ps)
    || nullish (lookup_prop "voice" ps) = true ->
  exists msg, present h (VObj ps) w = (Throw (TypeError msg), w).
Proof.
  intros Hec Hnull.
  unfold present, mbind, M_bind, lift. cbn [get_prop]. rewrite Hec.
  cbn [is_undefined].
  destruct (nullish (lookup_prop "data" ps)) eqn:Hd.
  { destruct (addUsage_nullish icon_data _ Hd) as [msg ->]. eauto. }
  destruct (addUsage_defined icon_data _ Hd) as [t1 ->].
  destruct (nullish (lookup_prop "sms" ps)) eqn:Hs.
  { destruct (addUsage_nullish icon_sms _ Hs) as [msg ->]. eauto. }
  destruct (addUsage_defined icon_sms _ Hs) as [t2 ->].
  cbn [orb] in Hnull.
  destruct (addUsage_nullish icon_voice _ Hnull) as [msg ->]. eauto.
Qed.

Lemma present_missing_section_witness :
  exists msg,
    present host_ok (VObj [("data", VObj [("type", VStr "unlimited")])]) w0
    = (Throw (TypeError msg), w0).
Proof. apply present_missing_section; reflexivity. Defined.

(** X14. The presentation is all or nothing: it either ends in a fault
    with the world as it was, or it sets exactly one widget (shown first
    when the script runs in the app) and then completes; that widget has
    three lines on the standard gradient, or one line on the error
    gradient. *)
Theorem present_all_or_nothing (h : host) (json : value) (w : world) :
  match fst (present h json w) with
  | Throw _ => snd (present h json w) = w
  | Ok _ =>
      exists wd,
        history (snd (present h json w))
          = [EvComplete; EvSetWidget wd]
            ++ (if runsInApp h then [EvPresentSmall wd] else [])
            ++ history w /\
        store (snd (present h json w)) = store w /\
        (length (lines wd) = 3%nat /\ gradient wd = COLORS_standard \/
         length (lines wd) = 1%nat /\ gradient wd = COLORS_error)
  end.
Proof.
  unfold present, mbind, M_bind, lift, clock, emit, mret, M_ret.
  destruct (get_prop json "errorCode") as [ec|e]; [|done].
  destruct (is_undefined ec).
  - destruct (get_prop json "data") as [d|e]; [|done].
    destruct (addUsage icon_data d) as [t1|e]; [|done].
    destruct (get_prop json "sms") as [s|e]; [|done].
    destruct (addUsage icon_sms s) as [t2|e]; [|done].
    destruct (get_prop json "voice") as [v|e]; [|done].
    destruct (addUsage icon_voice v) as [t3|e]; [|done].
    cbn [store history global_json].
    destruct (runsInApp h); cbn; eexists; (split; [reflexivity|]);
      (split; [reflexivity|]); left; done.
  - cbn [store history global_json].
    destruct (runsInApp h); cbn; eexists; (split; [reflexivity|]);
      (split; [reflexivity|]); right; done.
Qed.

(** ** The orchestrator, stage by stage *)

Lemma only_events_weaken (ok ok' : event -> bool) (w w' : world) :
  (forall ev, ok ev = true -> ok' ev = true) ->
  only_events ok w w' -> only_events ok' w w'.
Proof.
  intros Hok [S (evs & Hh & Hall)]. split; [done|]. exists evs. split; [done|].
  rewrite forallb_forall in Hall |- *. auto.
Qed.

Lemma is_silent_is_usage (sid : value) (ev : event) :
  is_silent ev = true -> is_usage sid ev = true.
Proof. by destruct ev. Qed.

(** With the three artifacts in the cache a run is the usage fetch and the
    presentation, nothing else. *)
Lemma run_cached_eq (h : host) (w : world) (c k s : value) :
  cached "credentials.json" c w -> cached "cookies.json" k w ->
  cached "sid.json" s w ->
  run h w = (fetchData h s k ≫= present h) (entered w).
Proof.
  intros [Hc Dc] [Hk Dk] [Hs Ds].
  unfold run, mbind at 1 2 3 4 5 6 7, M_bind, emit, getCachedDataM.
  cbn [store history global_json]. rewrite Hc, Dc. cbn [mret M_ret store].
  rewrite Hk, Dk. cbn [mret M_ret store]. rewrite Hs, Ds. reflexivity.
Qed.

Lemma run_cached_only_events (h : host) (w : world) (c k s : value) :
  cached "credentials.json" c w -> cached "cookies.json" k w ->
  cached "sid.json" s w ->
  only_events (is_usage s) w (snd (run h w)).
Proof.
  intros Hc Hk Hs. rewrite (run_cached_eq h w c k s) by done.
  apply (only_events_trans _ _ (entered w)).
  - split; [done|]. by exists [EvCall "run"].
  - apply (keeps_bind _ (only_events_trans (is_usage s)));
      [apply fetchData_only_events|].
    intros json w1. eapply only_events_weaken; [apply is_silent_is_usage|].
    apply present_only_events.
Qed.

(** X15. With credentials, cookies and subscription id in the cache, a run
    leaves the store as it was, shows no alert and sends requests to the
    usage endpoint of the cached subscription id only: no login, no
    overview. *)
Theorem run_all_cached (h : host) (w : world) (c k s : value) :
  cached "credentials.json" c w -> cached "cookies.json" k w ->
  cached "sid.json" s w ->
  store (snd (run h w)) = store w /\
  exists evs,
    history (snd (run h w)) = evs ++ history w /\
    (EvAlert ∉ evs) /\
    forall req, EvLoad req ∈ evs \/ EvLoadJSON req ∈ evs ->
                url req = usage_url s.
Proof.
  intros Hc Hk Hs.
  destruct (run_cached_only_events h w c k s Hc Hk Hs) as [Hst (evs & Hh & Hall)].
  split; [done|]. exists evs. split; [done|].
  rewrite forallb_forall in Hall. split.
  - intros Hin. apply list_elem_of_In, Hall in Hin. done.
  - intros req [Hin|Hin]; apply list_elem_of_In, Hall in Hin;
      by apply String.eqb_eq in Hin.
Qed.

Lemma run_all_cached_witness :
  store (snd (run host_refusing w_cached)) = store w_cached /\
  exists evs,
    history (snd (run host_refusing w_cached)) = evs ++ history w_cached /\
    (EvAlert ∉ evs) /\
    forall req, EvLoad req ∈ evs \/ EvLoadJSON req ∈ evs ->
                url req = usage_url (VStr "SUB123").
Proof.
  apply (run_all_cached host_refusing w_cached creds cookies0 (VStr "SUB123"));
    split; vm_compute; reflexivity.
Defined.

(** *** What a run writes *)

Lemma keeps_mono {A} (R R' : world -> world -> Prop) (m : M A) :
  (forall w w', R w w' -> R' w w') -> keeps R m -> keeps R' m.
Proof. intros HR Hm w. apply HR, Hm. Qed.

Lemma run_writes_only (h : host) : keeps (writes_only three_names) (run h).
Proof.
  unfold run.
  keeps_go (writes_only_refl three_names) (writes_only_trans three_names)
    ltac:(first
      [ writes_prim
      | eapply only_events_writes_only; apply promptForCredentials_only_events
      | eapply only_events_writes_only; apply fetchData_only_events
      | eapply only_events_writes_only; apply present_only_events
      | eapply keeps_mono; [|apply fetchToken_writes_only];
        intros ? ?; apply writes_only_mono; intros ? ?%list_elem_of_singleton;
        subst; solve [repeat constructor]
      | eapply keeps_mono; [|apply fetchSid_writes_only];
        intros ? ?; apply writes_only_mono; intros ? ?%list_elem_of_singleton;
        subst; solve [repeat constructor] ]).
Qed.

(** X16. Whatever the host answers and however the run ends, a run keeps
    the documents directory, creates no directory but the cache directory,
    makes no file disappear and changes no file but [credentials.json],
    [cookies.json] and [sid.json] of the cache directory. *)
Theorem run_storage (h : host) (w : world) :
  documents (store (snd (run h w))) = documents (store w) /\
  (dirs (store (snd (run h w))) = dirs (store w) \/
   dirs (store (snd (run h w))) = {[cacheDirectory (store w)]} ∪ dirs (store w)) /\
  (forall p, fileExists p (store w) = true ->
             fileExists p (store (snd (run h w))) = true) /\
  (forall p, p ∉ cache_paths (store w) ->
             files (store (snd (run h w))) !! p = files (store w) !! p).
Proof.
  pose proof (run_writes_only h w) as Hw.
  split; [apply Hw|]. split; [apply Hw|]. split.
  - intros p. by apply (writes_only_exists three_names).
  - intros p Hp. destruct Hw as (_ & _ & _ & F). apply F.
    intros n Hn ->. apply Hp. unfold cache_paths, three_names in *.
    repeat (apply elem_of_cons in Hn as [->|Hn]; [solve [repeat constructor]|]).
    by apply not_elem_of_nil in Hn.
Qed.

(** *** What a completed run leaves *)

Lemma bind_Ok_inv {A B} (m : M A) (f : A -> M B) (w w' : world) (b : B) :
  (m ≫= f) w = (Ok b, w') ->
  exists a w1, m w = (Ok a, w1) /\ f a w1 = (Ok b, w').
Proof.
  unfold mbind, M_bind. destruct (m w) as [[a|e] w1]; [eauto | done].
Qed.

Lemma cached_same_store (n : string) (v : value) (w w' : world) :
  store w' = store w -> cached n v w -> cached n v w'.
Proof. unfold cached. by intros ->. Qed.

Lemma cached_writes_only (names : list string) (n : string) (v : value)
    (w w' : world) :
  writes_only names w w' -> n ∉ names -> cached n v w -> cached n v w'.
Proof.
  intros Hw Hn [Hv Hd]. split; [|done].
  by rewrite (writes_only_read names w w' n).
Qed.

(** A file that is there never reads as [undefined]. *)
Lemma getCachedData_defined (n : string) (st : storage) (v : value) :
  is_Some (files st !! cacheFile n st) ->
  getCachedData n st = Ok v -> is_undefined v = false.
Proof.
  intros [t Ht]. unfold getCachedData, readString, fileExists. rewrite Ht.
  rewrite bool_decide_eq_true_2 by eauto. cbn. apply JSON_parse_defined.
Qed.

Lemma cacheFile_writes_only (names : list string) (n : string) (w w' : world) :
  writes_only names w w' -> cacheFile n (store w') = cacheFile n (store w).
Proof. intros (D & _). unfold cacheFile, cacheDirectory. by rewrite D. Qed.

(** The credentials stage. *)
Lemma credentials_stage (h : host) (w w' : world) (c0 c : value) :
  getCachedData "credentials.json" (store w) = Ok c0 ->
  (if is_undefined c0
   then credentials ← promptForCredentials h;
        cacheDataM "credentials.json" credentials;; mret credentials
   else mret c0) w = (Ok c, w') ->
  cached "credentials.json" c w'.
Proof.
  intros Hc0. destruct (is_undefined c0) eqn:Hd.
  - intros H. apply bind_Ok_inv in H as (c1 & w1 & Hp & H).
    apply bind_Ok_inv in H as ([] & w2 & Hw & H). injection H as <- <-.
    assert (Hser : serializable c1 = true /\ is_undefined c1 = false).
    { revert Hp. unfold promptForCredentials, mbind, M_bind, emit, ask, throw.
      destruct (chosen _ =? -1); [done|]. by intros [= <- _]. }
    rewrite cacheDataM_eq in Hw. injection Hw as _ <-. split; [|apply Hser].
    cbn [store]. apply cacheData_read, Hser.
  - intros [= <- <-]. by split.
Qed.

(** The session stage. *)
Lemma session_stage (h : host) (w w' : world) (c k0 k : value) :
  getCachedData "cookies.json" (store w) = Ok k0 ->
  (if is_undefined k0
   then fetchToken h c;; getCachedDataM "cookies.json"
   else mret k0) w = (Ok k, w') ->
  cached "cookies.json" k w' /\ writes_only ["cookies.json"] w w'.
Proof.
  intros Hk0. destruct (is_undefined k0) eqn:Hd.
  - intros H. apply bind_Ok_inv in H as ([] & w1 & Ht & H).
    unfold getCachedDataM in H. injection H as Hk <-.
    pose proof (fetchToken_writes_only h c w) as Hw.
    pose proof (fetchToken_outcome h c w) as Ho.
    rewrite Ht in Hw, Ho. cbn [fst snd] in Hw, Ho. split; [|done].
    split; [done|]. apply (getCachedData_defined "cookies.json" (store w1));
      [|done].
    by rewrite (cacheFile_writes_only _ _ _ _ Hw).
  - intros [= <- <-]. split; [by split | apply writes_only_refl].
Qed.

(** The subscription stage. *)
Lemma subscription_stage (h : host) (w w' : world) (k s0 s : value) :
  getCachedData "sid.json" (store w) = Ok s0 ->
  (if is_undefined s0
   then fetchSid h k;; getCachedDataM "sid.json"
   else mret s0) w = (Ok s, w') ->
  cached "sid.json" s w' /\ writes_only ["sid.json"] w w'.
Proof.
  intros Hs0. destruct (is_undefined s0) eqn:Hd.
  - intros H. apply bind_Ok_inv in H as ([] & w1 & Ht & H).
    unfold getCachedDataM in H. injection H as Hs <-.
    pose proof (fetchSid_writes_only h k w) as Hw.
    pose proof (fetchSid_outcome h k w) as Ho.
    rewrite Ht in Hw, Ho. cbn [fst snd] in Hw, Ho. split; [|done].
    split; [done|]. apply (getCachedData_defined "sid.json" (store w1));
      [|done].
    by rewrite (cacheFile_writes_only _ _ _ _ Hw).
  - intros [= <- <-]. split; [by split | apply writes_only_refl].
Qed.

Lemma run_ok_cached (h : host) (w w' : world) :
  run h w = (Ok tt, w') ->
  exists c k s,
    cached "credentials.json" c w' /\ cached "cookies.json" k w' /\
    cached "sid.json" s w'.
Proof.
  unfold run. intros H.
  apply bind_Ok_inv in H as ([] & w1 & _ & H).
  apply bind_Ok_inv in H as (c0 & w2 & Hc0 & H).
  unfold getCachedDataM in Hc0. injection Hc0 as Hc0 <-.
  apply bind_Ok_inv in H as (c & w3 & Hst1 & H).
  apply (credentials_stage h w1 w3 c0 c Hc0) in Hst1.
  apply bind_Ok_inv in H as (k0 & w4 & Hk0 & H).
  unfold getCachedDataM in Hk0. injection Hk0 as Hk0 <-.
  apply bind_Ok_inv in H as (k & w5 & Hst2 & H).
  apply (session_stage h w3 w5 c k0 k Hk0) in Hst2 as [Hk Hw2].
  apply bind_Ok_inv in H as (s0 & w6 & Hs0 & H).
  unfold getCachedDataM in Hs0. injection Hs0 as Hs0 <-.
  apply bind_Ok_inv in H as (s & w7 & Hst3 & H).
  apply (subscription_stage h w5 w7 k s0 s Hs0) in Hst3 as [Hs Hw3].
  apply bind_Ok_inv in H as (json & w8 & Hf & H).
  assert (S8 : store w8 = store w7).
  { apply (keeps_outcome _ _ _ _ _ (fetchData_only_events h s k) Hf). }
  assert (S9 : store w' = store w8).
  { apply (keeps_outcome _ _ _ _ _ (present_only_events h json) H). }
  assert (S : store w' = store w7) by congruence.
  exists c, k, s. split; [|split]; apply (cached_same_store _ _ w7); try done.
  - apply (cached_writes_only ["sid.json"] _ _ w5); [done | |].
    { by intros ?%list_elem_of_singleton. }
    apply (cached_writes_only ["cookies.json"] _ _ w3); [done | | done].
    by intros ?%list_elem_of_singleton.
  - apply (cached_writes_only ["sid.json"] _ _ w5); [done | | done].
    by intros ?%list_elem_of_singleton.
Qed.

(** X17. A run that completes leaves credentials, cookies and subscription
    id readable in the cache; any later run on that storage, whatever its
    host answers, writes nothing, shows no alert and sends requests to the
    usage endpoint of that subscription id only. *)
Theorem run_completed_fills_cache (h : host) (w : world) :
  fst (run h w) = Ok tt ->
  exists c k s,
    cached "credentials.json" c (snd (run h w)) /\
    cached "cookies.json" k (snd (run h w)) /\
    cached "sid.json" s (snd (run h w)) /\
    forall h' w', store w' = store (snd (run h w)) ->
                  only_events (is_usage s) w' (snd (run h' w')).
Proof.
  intros Hok. destruct (run h w) as [r w1] eqn:Hrun. cbn in *. subst r.
  destruct (run_ok_cached h w w1 Hrun) as (c & k & s & Hc & Hk & Hs).
  exists c, k, s. repeat (split; [done|]).
  intros h' w' Hw'.
  apply (run_cached_only_events h' w' c k s);
    by apply (cached_same_store _ _ w1).
Qed.

Lemma run_completed_fills_cache_witness :
  exists c k s,
    cached "credentials.json" c (snd (run host_ok w0)) /\
    cached "cookies.json" k (snd (run host_ok w0)) /\
    cached "sid.json" s (snd (run host_ok w0)) /\
    forall h' w', store w' = store (snd (run host_ok w0)) ->
                  only_events (is_usage s) w' (snd (run h' w')).
Proof. apply run_completed_fills_cache. vm_compute. reflexivity. Defined.

(** *** A run that degrades, a run that aborts *)

(** X18. With the three artifacts in the cache, whenever the Usage Fetcher
    returns an error payload [{errorCode: code}] the run still completes
    and the widget it sets is the error widget naming that code. *)
Theorem run_error_payload (h : host) (w : world) (c k s : value) (code : Z) :
  cached "credentials.json" c w -> cached "cookies.json" k w ->
  cached "sid.json" s w ->
  fst (fetchData h s k (entered w)) = Ok (VObj [("errorCode", VNum code)]) ->
  fst (run h w) = Ok tt /\
  exists stamp rest,
    history (snd (run h w))
      = EvComplete :: EvSetWidget (error_widget code stamp) :: rest.
Proof.
  intros Hc Hk Hs Hf. rewrite (run_cached_eq h w c k s) by done.
  unfold mbind, M_bind.
  destruct (fetchData h s k (entered w)) as [r w1]. cbn in Hf. subst r.
  unfold present, mbind, M_bind, lift, clock, emit, mret, M_ret.
  cbn [get_prop lookup_prop String.eqb Ascii.eqb Bool.eqb is_undefined].
  cbn [store history global_json].
  destruct (runsInApp h); cbn [fst snd history]; (split; [done|]);
    eexists _, _; reflexivity.
Qed.

Lemma run_error_payload_witness :
  fst (run host_refusing w_cached) = Ok tt /\
  exists stamp rest,
    history (snd (run host_refusing w_cached))
      = EvComplete :: EvSetWidget (error_widget 403 stamp) :: rest.
Proof.
  apply (run_error_payload host_refusing w_cached creds cookies0 (VStr "SUB123"));
    first [split; vm_compute; reflexivity | vm_compute; reflexivity].
Defined.

(** X19. With credentials in the cache and no cookies, a login answered
    with a status other than 200 aborts the run with the login error: the
    store is as it was, the login request is the only request, and the
    history ends with it, so that no widget is set. *)
Theorem run_login_refused (h : host) (w : world) (c username password : value)
    (resp : response) :
  let hist := EvCall "fetchToken" :: EvCall "run" :: history w in
  let req := login_request
               (login_payload username password (toISOString h hist)) in
  cached "credentials.json" c w ->
  get_prop c "username" = Ok username ->
  get_prop c "password" = Ok password ->
  getCachedData "cookies.json" (store w) = Ok VUndefined ->
  load h hist req = LoadDone resp ->
  statusCode resp <> 200 ->
  fst (run h w)
    = Throw (JsError ("Failed to fetch token: " +:+ dec (statusCode resp))) /\
  store (snd (run h w)) = store w /\
  history (snd (run h w)) = EvLoad req :: hist.
Proof.
  intros hist req [Hc Dc] Hu Hp Hk Hload Hs.
  assert (Hrun : run h w =
    (Throw (JsError ("Failed to fetch token: " +:+ dec (statusCode resp))),
     {| store := store w; history := EvLoad req :: hist;
        global_json := global_json w |})).
  { unfold run, mbind at 1 2 3 4, M_bind, emit, getCachedDataM.
    cbn [store history global_json]. rewrite Hc, Dc. cbn [mret M_ret store].
    rewrite Hk. cbn [is_undefined].
    unfold mbind at 1, M_bind.
    unfold fetchToken, mbind, M_bind, emit, lift, ask, clock, throw.
    cbn [store history global_json]. rewrite Hu, Hp. fold hist. fold req.
    rewrite Hload. apply Z.eqb_neq in Hs. rewrite Hs. reflexivity. }
  by rewrite Hrun.
Qed.

Lemma run_login_refused_witness :
  let hist := EvCall "fetchToken" :: EvCall "run" :: history w_creds in
  let req := login_request
               (login_payload (VStr "jan") (VStr "geheim")
                  (toISOString host_refusing hist)) in
  fst (run host_refusing w_creds) = Throw (JsError "Failed to fetch token: 403") /\
  store (snd (run host_refusing w_creds)) = store w_creds /\
  history (snd (run host_refusing w_creds)) = EvLoad req :: hist.
Proof.
  apply (run_login_refused host_refusing w_creds creds (VStr "jan")
           (VStr "geheim") resp403);
    first [reflexivity | split; vm_compute; reflexivity | simpl; lia].
Defined.

(** X20. The credentials are cached before they are tried: when the cache
    holds neither credentials nor cookies, the operator confirms the prompt
    and the login is refused, the run aborts with the login error and the
    credentials that were typed are in the cache all the same. *)
Theorem run_caches_untried_credentials (h : host) (w : world) (resp : response) :
  let asked := EvCall "promptForCredentials" :: EvCall "run" :: history w in
  let answer := presentAlert h asked in
  let c := VObj [("username", VStr (textFieldValue answer 0));
                 ("password", VStr (textFieldValue answer 1))] in
  let hist := EvCall "fetchToken" :: EvAlert :: asked in
  getCachedData "credentials.json" (store w) = Ok VUndefined ->
  getCachedData "cookies.json" (store w) = Ok VUndefined ->
  chosen answer <> -1 ->
  load h hist
       (login_request
          (login_payload (VStr (textFieldValue answer 0))
             (VStr (textFieldValue answer 1)) (toISOString h hist)))
    = LoadDone resp ->
  statusCode resp <> 200 ->
  fst (run h w)
    = Throw (JsError ("Failed to fetch token: " +:+ dec (statusCode resp))) /\
  cached "credentials.json" c (snd (run h w)).
Proof.
  intros asked answer c hist Hc Hk Hans Hload Hs.
  assert (Hser : serializable c = true) by reflexivity.
  assert (Hrun : run h w =
    (Throw (JsError ("Failed to fetch token: " +:+ dec (statusCode resp))),
     {| store := snd (cacheData "credentials.json" c (store w));
        history := EvLoad (login_request
                     (login_payload (VStr (textFieldValue answer 0))
                        (VStr (textFieldValue answer 1)) (toISOString h hist)))
                   :: hist;
        global_json := global_json w |})).
  { unfold run, mbind at 1 2 3, M_bind, emit, getCachedDataM.
    cbn [store history global_json]. rewrite Hc. cbn [is_undefined].
    unfold mbind at 1 2 3, M_bind.
    unfold promptForCredentials, mbind at 1 2, M_bind, emit, ask, throw.
    cbn [store history global_json]. fold asked. fold answer.
    apply Z.eqb_neq in Hans. rewrite Hans. cbn [mret M_ret].
    fold c. rewrite cacheDataM_eq. cbn [fst snd store history global_json].
    destruct (parse_stringify c Hser) as (t & Ht & _).
    assert (Hok : fst (cacheData "credentials.json" c (store w)) = Ok tt).
    { unfold cacheData, writeString. by rewrite Ht. }
    rewrite Hok. cbn [mret M_ret store].
    rewrite (getCachedData_cacheData_ne "cookies.json" "credentials.json")
      by discriminate.
    rewrite Hk. cbn [is_undefined].
    unfold mbind at 1, M_bind.
    unfold fetchToken, mbind, M_bind, emit, lift, ask, clock, throw.
    unfold c at 1 2.
    cbn [store history global_json get_prop lookup_prop String.eqb Ascii.eqb
         Bool.eqb].
    fold hist. rewrite Hload. apply Z.eqb_neq in Hs. rewrite Hs. reflexivity. }
  rewrite Hrun. cbn [fst snd]. split; [done|]. split; [|done].
  cbn [store]. by apply cacheData_read.
Qed.

Lemma run_caches_untried_credentials_witness :
  fst (run host_wrong_password w0) = Throw (JsError "Failed to fetch token: 403") /\
  cached "credentials.json" creds (snd (run host_wrong_password w0)).
Proof.
  apply (run_caches_untried_credentials host_wrong_password w0 resp403);
    first [reflexivity | simpl; lia].
Defined.

(** X21. With credentials and cookies in the cache and no subscription id,
    a fault of the overview request leaves the run with that very fault:
    the store is as it was, the overview request is the only request, and
    the history ends with it, so that no widget is set. *)
Theorem run_overview_fault (h : host) (w : world) (c k : value)
    (cs : list (string * string)) (e : exn) :
  let hist := EvCall "fetchSid" :: EvCall "run" :: history w in
  let req := get_request overview_url (spec_cookie_header cs) in
  cached "credentials.json" c w -> cached "cookies.json" k w ->
  cookies_of k = Some cs ->
  getCachedData "sid.json" (store w) = Ok VUndefined ->
  loadJSON h hist req = JsonFault e ->
  fst (run h w) = Throw e /\
  store (snd (run h w)) = store w /\
  history (snd (run h w)) = EvLoadJSON req :: hist.
Proof.
  intros hist req [Hc Dc] [Hk Dk] Hcs Hs Hload.
  assert (Hrun : run h w =
    (Throw e, {| store := store w; history := EvLoadJSON req :: hist;
                 global_json := global_json w |})).
  { unfold run, mbind at 1 2 3 4 5 6, M_bind, emit, getCachedDataM.
    cbn [store history global_json]. rewrite Hc, Dc. cbn [mret M_ret store].
    rewrite Hk, Dk. cbn [mret M_ret store]. rewrite Hs. cbn [is_undefined].
    unfold mbind at 1, M_bind.
    unfold fetchSid, mbind, M_bind, emit, lift, ask, throw.
    cbn [store history global_json]. rewrite (cookie_header_spec _ _ Hcs).
    fold hist. fold req. rewrite Hload. reflexivity. }
  by rewrite Hrun.
Qed.

Lemma run_overview_fault_witness :
  let hist := EvCall "fetchSid" :: EvCall "run" :: history w_cookies_creds in
  let req := get_request overview_url "sess=abc" in
  fst (run host_offline w_cookies_creds)
    = Throw (HostError "The Internet connection appears to be offline.") /\
  store (snd (run host_offline w_cookies_creds)) = store w_cookies_creds /\
  history (snd (run host_offline w_cookies_creds)) = EvLoadJSON req :: hist.
Proof.
  apply (run_overview_fault host_offline w_cookies_creds creds cookies0
           [("sess", "abc")]);
    first [reflexivity | split; vm_compute; reflexivity].
Defined.

Lemma JSON_parse_no_value (t : string) :
  starts_no_value t = true -> JSON_parse t = Throw (SyntaxError "JSON Parse error").
Proof.
  unfold starts_no_value, JSON_parse. intros Hstart.
  destruct (String.length t) as [|f]; [done|]. rewrite parse_value_S.
  destruct (skip_ws t) as [|c r]; [done|].
  apply negb_true_iff in Hstart. rewrite !orb_false_iff in Hstart.
  destruct Hstart as [[[[[[[Hn Ht] Hf] Hq] Ha] Ho] Hm] Hd].
  rewrite Hn, Ht, Hf, Hq, Ha, Ho. unfold read_number, read_nat.
  by rewrite Hm, Hd.
Qed.

(** X22. A cached document that is no JSON is never repaired: if
    [credentials.json] holds a text that is blank or that begins, after
    white space, with a character with which no JSON value begins, the run
    ends at once with the syntax error of [JSON.parse], before any alert or
    request, and leaves the storage, the bad file included, as it was. *)
Theorem run_corrupt_credentials (h : host) (w : world) (t : string) :
  files (store w) !! cacheFile "credentials.json" (store w) = Some t ->
  starts_no_value t = true ->
  exists msg, run h w = (Throw (SyntaxError msg), entered w).
Proof.
  intros Ht Hstart. eexists.
  unfold run, mbind at 1 2, M_bind, emit, getCachedDataM.
  cbn [store history global_json].
  unfold getCachedData, readString, fileExists. rewrite Ht.
  rewrite bool_decide_eq_true_2 by eauto. cbn [orb negb mbind result_bind].
  rewrite (JSON_parse_no_value t Hstart). reflexivity.
Qed.

Lemma run_corrupt_credentials_witness :
  exists msg, run host_ok w_corrupt = (Throw (SyntaxError msg), entered w_corrupt).
Proof.
  apply (run_corrupt_credentials host_ok w_corrupt "<html>"); reflexivity.
Defined.

(** ** Histories of writes *)

Lemma writes_app (ops ops' : list (string * value)) (st : storage) :
  writes (ops ++ ops') st = writes ops' (writes ops st).
Proof.
  revert st. induction ops as [|[n v] ops IH]; intros st; [done|].
  cbn [app writes]. apply IH.
Qed.

Lemma getCachedData_writes_ne (ops : list (string * value)) (n : string) :
  forall st, Forall (fun op => fst op <> n) ops ->
             getCachedData n (writes ops st) = getCachedData n st.
Proof.
  induction ops as [|[m v] ops IH]; intros st Hops; [done|].
  apply Forall_cons in Hops as [Hm Hops]. cbn [writes].
  rewrite IH by done. by apply getCachedData_cacheData_ne.
Qed.

(** X23. The last write wins: after any history of cache writes, a name
    reads as the last value written under it, if that value is
    serializable, whatever was written before it and whatever was written
    under other names after it. *)
Theorem writes_last_wins (before after : list (string * value)) (n : string)
    (v : value) (st : storage) :
  serializable v = true ->
  Forall (fun op => fst op <> n) after ->
  getCachedData n (writes (before ++ (n, v) :: after) st) = Ok v.
Proof.
  intros Hser Hafter. rewrite writes_app. cbn [writes].
  rewrite getCachedData_writes_ne by done. by apply cacheData_read.
Qed.

Lemma writes_last_wins_witness :
  getCachedData "sid.json"
    (writes ([("sid.json", VStr "OLD"); ("cookies.json", VNull)]
             ++ ("sid.json", VStr "SUB123") :: [("cookies.json", cookies0)]) st0)
  = Ok (VStr "SUB123").
Proof.
  apply writes_last_wins; [reflexivity|].
  repeat constructor. simpl. discriminate.
Defined.
